(** * notion-server: the tool handlers of [src/index.ts]

    A shallow embedding of the MCP tool gateway of the Notion server:
    the error normalizer [formatError], the four tool handlers
    ([search_pages], [read_page], [query_database], [retrieve_database])
    and the [CallToolRequestSchema] dispatcher, together with the fragment
    of JavaScript they run on (dynamically typed values, property access,
    truthiness, string conversion, [JSON.stringify], exceptions).

    Conventions of the model.
    - A JavaScript string is a Rocq [string] holding its UTF-8 bytes.  The
      source file spells its bullet and emoji markers with the code points
      U+00E2 U+20AC U+00A2 and so on; the constants below carry exactly the
      bytes of the source.
    - A JavaScript number is modelled by the integer it denotes ([VNum]):
      status codes, lengths and every number the handlers compute are
      integers.  Numbers with a fraction, and integers that binary64 does
      not represent exactly, are not values of the model.
    - Values are plain data (what a JSON API delivers, plus [undefined]),
      [Error] instances ([VErr]: name, message and the other, enumerable
      properties) and references into a [store] of shared objects ([VRef]),
      which is where an object can refer to itself.  Data holds no function:
      a property of an object is never callable.
    - The wording of messages that come from the engine or from zod follows
      V8 and zod 3; no statement below depends on that wording. *)

From Stdlib Require Import String Ascii List ZArith Lia Bool Arith.
From Stdlib Require Import DecimalString.
Import ListNotations.
Open Scope string_scope.

Set Implicit Arguments.

(** ** Strings *)

Module Text.

Local Open Scope nat_scope.

Definition byte_is (n : nat) (c : ascii) : bool := Nat.eqb (nat_of_ascii c) n.

Definition between (lo hi : nat) (c : ascii) : bool :=
  (lo <=? nat_of_ascii c) && (nat_of_ascii c <=? hi).

(** The double quote and the line feed, as texts. *)
Definition dq : string := String "034"%char EmptyString.
Definition nl : string := String "010"%char EmptyString.

Definition of_nat (n : nat) : string :=
  NilZero.string_of_uint (Nat.to_uint n).

Definition of_Z (n : Z) : string :=
  NilZero.string_of_int (Z.to_int n).

(** *** [Number::toString] on integers

    A number is a binary64 value.  Its text carries the fewest significant
    digits that still read back as the same number, followed by zeros up to
    21 digits in all and by an exponent beyond.  For an integer below 2^53
    these are all its digits. *)

(** The binary64 value nearest to the integer [q >= 0], ties to even. *)
Definition nearest_double (q : Z) : Z :=
  (let bits := Z.log2 q + 1 in
   if bits <=? 53 then q
   else
     let shift := bits - 53 in
     let m := Z.shiftr q shift in
     let r := q - Z.shiftl m shift in
     let half := Z.shiftl 1 (shift - 1) in
     Z.shiftl (if (half <? r) || ((r =? half) && Z.odd m) then m + 1 else m)
              shift)%Z.

(** The decimal with the fewest significant digits, [k] or more, that reads
    back as [x]; of two with as many digits, the one closer to [x]. *)
Fixpoint shortest (fuel : nat) (k digits x : Z) : Z :=
  match fuel with
  | O => x
  | S fuel' =>
      (let p := 10 ^ (digits - k) in
       let lo := x / p * p in
       let hi := lo + p in
       let below := nearest_double lo =? x in
       let above := nearest_double hi =? x in
       if below && above then
         if x - lo <? hi - x then lo
         else if hi - x <? x - lo then hi
         else if Z.even (x / p) then lo else hi
       else if below then lo
       else if above then hi
       else shortest fuel' (k + 1) digits x)%Z
  end.

Fixpoint strip_zeros (s : string) : string :=
  match s with
  | EmptyString => EmptyString
  | String c r =>
      match strip_zeros r with
      | EmptyString =>
          if Ascii.eqb c "0" then EmptyString else String c EmptyString
      | r' => String c r'
      end
  end.

Definition number_text (n : Z) : string :=
  if (n =? 0)%Z then "0"
  else
    let x := Z.abs n in
    let digits := String.length (of_Z x) in
    let c := shortest digits 1 (Z.of_nat digits) x in
    let sign := if (n <? 0)%Z then "-" else EmptyString in
    if (c <? 10 ^ 21)%Z then sign ++ of_Z c
    else
      match strip_zeros (of_Z c) with
      | String d rest =>
          sign ++ String d (if String.eqb rest EmptyString then EmptyString
                            else "." ++ rest)
          ++ "e+" ++ of_nat (String.length (of_Z c) - 1)
      | EmptyString => sign ++ of_Z c
      end.

(** [s.replace(/-/g, by)] *)
Fixpoint replace_dashes (by_ s : string) : string :=
  match s with
  | EmptyString => EmptyString
  | String c r =>
      if Ascii.eqb c "-" then by_ ++ replace_dashes by_ r
      else String c (replace_dashes by_ r)
  end.

(** White space and line terminators of ECMAScript, by UTF-8 encoding:
    U+0009..U+000D, U+0020; U+00A0; U+1680, U+2000..U+200A, U+2028,
    U+2029, U+202F, U+205F, U+3000, U+FEFF. *)
Definition ws1 (c : ascii) : bool := between 9 13 c || byte_is 32 c.

Definition ws2 (c1 c2 : ascii) : bool := byte_is 194 c1 && byte_is 160 c2.

Definition ws3 (c1 c2 c3 : ascii) : bool :=
  (byte_is 225 c1 && byte_is 154 c2 && byte_is 128 c3)
  || (byte_is 226 c1 && byte_is 128 c2
      && (between 128 138 c3 || byte_is 168 c3 || byte_is 169 c3
          || byte_is 175 c3))
  || (byte_is 226 c1 && byte_is 129 c2 && byte_is 159 c3)
  || (byte_is 227 c1 && byte_is 128 c2 && byte_is 128 c3)
  || (byte_is 239 c1 && byte_is 187 c2 && byte_is 191 c3).

Fixpoint trim_front (l : list ascii) : list ascii :=
  match l with
  | c1 :: r1 =>
      if ws1 c1 then trim_front r1
      else match r1 with
           | c2 :: r2 =>
               if ws2 c1 c2 then trim_front r2
               else match r2 with
                    | c3 :: r3 => if ws3 c1 c2 c3 then trim_front r3 else l
                    | [] => l
                    end
           | [] => l
           end
  | [] => l
  end.

(** The same scan on the reversed text: bytes arrive last one first. *)
Fixpoint trim_front_rev (l : list ascii) : list ascii :=
  match l with
  | c1 :: r1 =>
      if ws1 c1 then trim_front_rev r1
      else match r1 with
           | c2 :: r2 =>
               if ws2 c2 c1 then trim_front_rev r2
               else match r2 with
                    | c3 :: r3 => if ws3 c3 c2 c1 then trim_front_rev r3 else l
                    | [] => l
                    end
           | [] => l
           end
  | [] => l
  end.

(** [String.prototype.trim] *)
Definition trim (s : string) : string :=
  string_of_list_ascii
    (rev (trim_front_rev (rev (trim_front (list_ascii_of_string s))))).

(** UTF-8 continuation bytes, and the number of UTF-16 code units of a
    text ([s.length]). *)
Definition continuation (c : ascii) : bool := between 128 191 c.

Fixpoint utf16_length (s : string) : nat :=
  match s with
  | EmptyString => 0
  | String c r =>
      (if continuation c then 0 else if between 240 255 c then 2 else 1)
      + utf16_length r
  end.

(** The code points of a text, one string each (string iteration). *)
Definition starts_with_continuation (s : string) : bool :=
  match s with
  | String c _ => continuation c
  | EmptyString => false
  end.

Fixpoint chars (s : string) : list string :=
  match s with
  | EmptyString => []
  | String c r =>
      match chars r with
      | x :: xs =>
          if starts_with_continuation r then String c x :: xs
          else String c EmptyString :: x :: xs
      | [] => [String c EmptyString]
      end
  end.

(** *** [decodeURIComponent] *)

Definition hex_val (c : ascii) : option nat :=
  let n := nat_of_ascii c in
  if between 48 57 c then Some (n - 48)
  else if between 65 70 c then Some (n - 55)
  else if between 97 102 c then Some (n - 87)
  else None.

Inductive token : Type :=
| Lit (c : ascii)
| Esc (octet : nat).

(** First pass: every percent sign must start a two-digit escape. *)
Fixpoint tokens (s : string) : option (list token) :=
  match s with
  | EmptyString => Some []
  | String c r =>
      if Ascii.eqb c "%" then
        match r with
        | String a (String b r') =>
            match hex_val a, hex_val b with
            | Some x, Some y => option_map (cons (Esc (16 * x + y))) (tokens r')
            | _, _ => None
            end
        | _ => None
        end
      else option_map (cons (Lit c)) (tokens r)
  end.

Definition tail_octet (n : nat) : bool := (128 <=? n) && (n <=? 191).

Definition valid2 (b1 b2 : nat) : bool :=
  (194 <=? b1) && (b1 <=? 223) && tail_octet b2.

Definition valid3 (b1 b2 b3 : nat) : bool :=
  (224 <=? b1) && (b1 <=? 239) && tail_octet b3
  && (if b1 =? 224 then (160 <=? b2) && (b2 <=? 191)
      else if b1 =? 237 then (128 <=? b2) && (b2 <=? 159)
      else tail_octet b2).

Definition valid4 (b1 b2 b3 b4 : nat) : bool :=
  (240 <=? b1) && (b1 <=? 244) && tail_octet b3 && tail_octet b4
  && (if b1 =? 240 then (144 <=? b2) && (b2 <=? 191)
      else if b1 =? 244 then (128 <=? b2) && (b2 <=? 143)
      else tail_octet b2).

Definition octets (l : list nat) (rest : list ascii) : list ascii :=
  map ascii_of_nat l ++ rest.

(** Second pass: the escaped octets must be well-formed UTF-8. *)
Fixpoint utf8_decode (ts : list token) : option (list ascii) :=
  match ts with
  | [] => Some []
  | Lit c :: r => option_map (cons c) (utf8_decode r)
  | Esc b1 :: r =>
      if b1 <? 128 then option_map (octets [b1]) (utf8_decode r)
      else
        match r with
        | Esc b2 :: r2 =>
            if valid2 b1 b2 then option_map (octets [b1; b2]) (utf8_decode r2)
            else
              match r2 with
              | Esc b3 :: r3 =>
                  if valid3 b1 b2 b3
                  then option_map (octets [b1; b2; b3]) (utf8_decode r3)
                  else
                    match r3 with
                    | Esc b4 :: r4 =>
                        if valid4 b1 b2 b3 b4
                        then option_map (octets [b1; b2; b3; b4])
                                        (utf8_decode r4)
                        else None
                    | _ => None
                    end
              | _ => None
              end
        | _ => None
        end
  end.

(** [None] stands for the [URIError] the built-in raises. *)
Definition decodeURIComponent (s : string) : option string :=
  match tokens s with
  | Some ts => option_map string_of_list_ascii (utf8_decode ts)
  | None => None
  end.

(** *** The pattern [/\/([^/]+)-[^/]+$/]

    Both character classes exclude the slash and the pattern is anchored at
    the end, so a match starts at the last slash; the first group is greedy,
    so it ends at the last dash that still leaves text behind it. *)
Fixpoint last_segment (s : string) : option string :=
  match s with
  | EmptyString => None
  | String c r =>
      match last_segment r with
      | Some seg => Some seg
      | None => if Ascii.eqb c "/" then Some r else None
      end
  end.

Fixpoint greedy_group (seg : string) : option string :=
  match seg with
  | EmptyString => None
  | String c r =>
      match greedy_group r with
      | Some a => Some (String c a)
      | None =>
          if Ascii.eqb c "-" && negb (String.eqb r EmptyString)
          then Some EmptyString else None
      end
  end.

(** [url.match(/\/([^/]+)-[^/]+$/)]: the first capture group of the match,
    [None] when the pattern does not match. *)
Definition match_slug (url : string) : option string :=
  match last_segment url with
  | Some seg =>
      match greedy_group seg with
      | Some EmptyString => None
      | g => g
      end
  | None => None
  end.

End Text.

(** ** Values *)

#[warnings="-register-all"]
Inductive value : Type :=
| VUndefined
| VNull
| VBool (b : bool)
| VNum (n : Z)
| VStr (s : string)
| VArr (items : list value)
| VObj (props : list (string * value))
| VErr (name message : string) (props : list (string * value))
| VRef (a : nat).

(** Shared objects: cell [a] holds the own properties of the object that
    [VRef a] points to, in enumeration order.  A reference outside the store
    reads as an object without properties. *)
Definition store : Type := list (list (string * value)).

(** Outcome of an evaluation: a value, or a thrown one. *)
Inductive completion (A : Type) : Type :=
| Normal (a : A)
| Throw (e : value).

Arguments Normal {A} a.
Arguments Throw {A} e.

Module Js.

Definition truthy (v : value) : bool :=
  match v with
  | VUndefined | VNull => false
  | VBool b => b
  | VNum n => negb (n =? 0)%Z
  | VStr s => negb (s =? EmptyString)
  | VArr _ | VObj _ | VErr _ _ _ | VRef _ => true
  end.

Definition nullish (v : value) : bool :=
  match v with
  | VUndefined | VNull => true
  | _ => false
  end.

(** [a || b] *)
Definition or_else (a b : value) : value := if truthy a then a else b.

(** [v === "s"] and [v === n] *)
Definition is_str (s : string) (v : value) : bool :=
  match v with
  | VStr t => t =? s
  | _ => false
  end.

Definition is_num (n : Z) (v : value) : bool :=
  match v with
  | VNum m => (m =? n)%Z
  | _ => false
  end.

Definition error_to_string (name message : string) : string :=
  if name =? EmptyString then message
  else if message =? EmptyString then name
  else name ++ ": " ++ message.

Definition TypeError (message : string) : value :=
  VErr "TypeError" message [].

Fixpoint lookup (k : string) (props : list (string * value)) : value :=
  match props with
  | [] => VUndefined
  | (k', v) :: rest => if k' =? k then v else lookup k rest
  end.

Definition has_own (k : string) (props : list (string * value)) : bool :=
  existsb (fun kv => fst kv =? k) props.

(** Own enumerable properties of an object value. *)
Definition props_of (h : store) (v : value) : list (string * value) :=
  match v with
  | VObj props | VErr _ _ props => props
  | VRef a => nth a h []
  | _ => []
  end.

(** The conversion of an object to a primitive, with hint string: the
    method [toString] is called when it is callable, then [valueOf].  An own
    [toString] of plain data is not callable, and the [valueOf] every object
    inherits returns the object itself, which is no primitive: the
    conversion throws.  Without an own [toString] the inherited one
    answers. *)
Definition not_primitive : value :=
  TypeError "Cannot convert object to primitive value".

Definition object_text (props : list (string * value)) (inherited : string)
  : completion string :=
  if has_own "toString" props then Throw not_primitive else Normal inherited.

(** [String(v)], the conversion of template literals and of property
    keys.  An array converts by [join(",")]. *)
Fixpoint to_string (h : store) (v : value) {struct v} : completion string :=
  match v with
  | VUndefined => Normal "undefined"
  | VNull => Normal "null"
  | VBool b => Normal (if b then "true" else "false")
  | VNum n => Normal (Text.number_text n)
  | VStr s => Normal s
  | VArr items =>
      match
        (fix texts (l : list value) : completion (list string) :=
           match l with
           | [] => Normal []
           | x :: r =>
               match
                 match x with
                 | VUndefined | VNull => Normal EmptyString
                 | _ => to_string h x
                 end
               with
               | Throw e => Throw e
               | Normal t =>
                   match texts r with
                   | Throw e => Throw e
                   | Normal ts => Normal (t :: ts)
                   end
               end
           end) items
      with
      | Throw e => Throw e
      | Normal ts => Normal (String.concat "," ts)
      end
  | VObj props => object_text props "[object Object]"
  | VRef a => object_text (nth a h []) "[object Object]"
  | VErr name message props => object_text props (error_to_string name message)
  end.

(** The texts [join] puts together: [undefined] and [null] give the empty
    text, any other element is converted. *)
Fixpoint texts (h : store) (items : list value) : completion (list string) :=
  match items with
  | [] => Normal []
  | x :: r =>
      match (if nullish x then Normal EmptyString else to_string h x) with
      | Throw e => Throw e
      | Normal t =>
          match texts h r with
          | Throw e => Throw e
          | Normal ts => Normal (t :: ts)
          end
      end
  end.

(** [items.join(sep)] *)
Definition join (h : store) (sep : string) (items : list value)
  : completion string :=
  match texts h items with
  | Throw e => Throw e
  | Normal ts => Normal (String.concat sep ts)
  end.

(** A value that converts to a text. *)
Definition converts (h : store) (v : value) : bool :=
  match to_string h v with
  | Normal _ => true
  | Throw _ => false
  end.

(** The words the engine uses for [undefined] and [null] in its messages. *)
Definition nullish_text (v : value) : string :=
  match v with
  | VNull => "null"
  | _ => "undefined"
  end.

(** A canonical array index written as a property key. *)
Definition index_of_key (k : string) : option nat :=
  match NilZero.uint_of_string k with
  | Some d =>
      let n := Nat.of_uint d in
      if Text.of_nat n =? k then Some n else None
  | None => None
  end.

(** [v[k]] on a value that is neither [undefined] nor [null]: an own
    property of an object, the [length] or an element of an array or of a
    string (indexed by code point), [name] and [message] of an error.  The
    members a value inherits from its prototype are functions, which data
    does not hold, and they read as [undefined] here.  Of the names the
    handlers read, [filter] and [sort] are such members, of arrays only
    ([query_database] reads them from its arguments, which the transport
    delivers as a record or not at all); the inherited members of
    [toolHandlers] itself are modelled with the dispatcher. *)
Definition own (h : store) (v : value) (k : string) : value :=
  match v with
  | VObj _ | VRef _ => lookup k (props_of h v)
  | VArr items =>
      if k =? "length" then VNum (Z.of_nat (length items))
      else match index_of_key k with
           | Some i => nth i items VUndefined
           | None => VUndefined
           end
  | VStr s =>
      if k =? "length" then VNum (Z.of_nat (Text.utf16_length s))
      else match index_of_key k with
           | Some i => nth i (map VStr (Text.chars s)) VUndefined
           | None => VUndefined
           end
  | VErr name message props =>
      if k =? "message" then VStr message
      else if k =? "name" then VStr name
      else lookup k props
  | _ => VUndefined
  end.

(** [v.k]: reading a property of [undefined] or [null] throws. *)
Definition get (h : store) (v : value) (k : string) : completion value :=
  if nullish v
  then Throw (TypeError ("Cannot read properties of " ++ nullish_text v
                         ++ " (reading '" ++ k ++ "')"))
  else Normal (own h v k).

(** [v?.k] *)
Definition get_opt (h : store) (v : value) (k : string) : value :=
  if nullish v then VUndefined else own h v k.

(** *** String literals of JSON *)

Definition hex_digit (n : nat) : ascii :=
  ascii_of_nat (if n <? 10 then 48 + n else 87 + n)%nat.

Definition escape (c : ascii) : string :=
  let n := nat_of_ascii c in
  if Text.byte_is 8 c then "\b"
  else if Text.byte_is 9 c then "\t"
  else if Text.byte_is 10 c then "\n"
  else if Text.byte_is 12 c then "\f"
  else if Text.byte_is 13 c then "\r"
  else if Text.byte_is 34 c then "\" ++ Text.dq
  else if Text.byte_is 92 c then "\\"
  else if (n <? 32)%nat
       then "\u00" ++ String (hex_digit (n / 16))
                             (String (hex_digit (n mod 16)) EmptyString)
       else String c EmptyString.

Fixpoint escape_all (s : string) : string :=
  match s with
  | EmptyString => EmptyString
  | String c r => escape c ++ escape_all r
  end.

Definition quote (s : string) : string :=
  Text.dq ++ escape_all s ++ Text.dq.

End Js.

(** *** [JSON.stringify(v, null, 2)]

    The serialiser keeps the stack of the shared objects it is inside of and
    throws when it meets one of them again.  Descending into a shared object
    costs one unit of fuel; [ser_fuel] below shows that one unit per cell of
    the store is always enough. *)

Module Json.

Definition gap : string := "  ".

Definition CircularError : value :=
  Js.TypeError "Converting circular structure to JSON".

Definition wrap (opening closing ind : string) (members : list string)
  : string :=
  match members with
  | [] => opening ++ closing
  | _ =>
      opening ++ Text.nl ++ ind ++ gap
      ++ String.concat ("," ++ Text.nl ++ ind ++ gap) members
      ++ Text.nl ++ ind ++ closing
  end.

Definition outcome : Type := option (completion (option string)).

Definition finish (opening closing ind : string)
           (r : option (completion (list string))) : outcome :=
  match r with
  | Some (Normal ts) => Some (Normal (Some (wrap opening closing ind ts)))
  | Some (Throw e) => Some (Throw e)
  | None => None
  end.

Section Walk.

Variable rec : string -> value -> outcome.

(** Array elements: [undefined] prints as [null]. *)
Fixpoint elements (ind : string) (items : list value)
  : option (completion (list string)) :=
  match items with
  | [] => Some (Normal [])
  | v :: rest =>
      match rec ind v with
      | None => None
      | Some (Throw e) => Some (Throw e)
      | Some (Normal t) =>
          match elements ind rest with
          | Some (Normal ts) =>
              Some (Normal (match t with
                            | Some s => s
                            | None => "null"
                            end :: ts))
          | other => other
          end
      end
  end.

(** Object members: a property whose value is [undefined] is left out. *)
Fixpoint members (ind : string) (props : list (string * value))
  : option (completion (list string)) :=
  match props with
  | [] => Some (Normal [])
  | (k, v) :: rest =>
      match rec ind v with
      | None => None
      | Some (Throw e) => Some (Throw e)
      | Some (Normal t) =>
          match members ind rest with
          | Some (Normal ts) =>
              Some (Normal (match t with
                            | Some s => (Js.quote k ++ ": " ++ s) :: ts
                            | None => ts
                            end))
          | other => other
          end
      end
  end.

End Walk.

Fixpoint ser (h : store) (fuel : nat) (stack : list nat) {struct fuel}
  : string -> value -> outcome :=
  fix go (ind : string) (v : value) {struct v} : outcome :=
    match v with
    | VUndefined => Some (Normal None)
    | VNull => Some (Normal (Some "null"))
    | VBool b => Some (Normal (Some (if b then "true" else "false")))
    | VNum n => Some (Normal (Some (Text.number_text n)))
    | VStr s => Some (Normal (Some (Js.quote s)))
    | VArr items => finish "[" "]" ind (elements go (ind ++ gap) items)
    | VObj props | VErr _ _ props =>
        finish "{" "}" ind (members go (ind ++ gap) props)
    | VRef a =>
        if existsb (Nat.eqb a) stack then Some (Throw CircularError)
        else
          match nth_error h a with
          | None => Some (Normal (Some "{}"))
          | Some props =>
              match fuel with
              | O => None
              | S fuel' =>
                  finish "{" "}" ind
                    (members (ser h fuel' (a :: stack)) (ind ++ gap) props)
              end
          end
    end.

(** [JSON.stringify(v, null, 2)]: the text, [None] for [undefined]. *)
Definition stringify (h : store) (v : value) : completion (option string) :=
  match ser h (length h) [] EmptyString v with
  | Some r => r
  | None => Throw CircularError
  end.

Definition to_value (t : option string) : value :=
  match t with
  | Some s => VStr s
  | None => VUndefined
  end.

End Json.

(** ** Effects: remote calls, the diagnostic channel, exceptions *)

(** The calls the handlers make on the Notion client, with the arguments
    that vary. *)
Inductive remote_call : Type :=
| search (query : value)
| blocks_children_list (block_id : value)
| pages_retrieve (page_id : value)
| databases_query (database_id filter sorts : value)
| databases_retrieve (database_id : value).

(** The collaborator: what each call resolves to or rejects with, and, for the
    two calls [read_page] awaits together, which of them settles first. *)
Record collaborator : Type := {
  respond : remote_call -> completion value;
  retrieve_settles_first : bool
}.

Inductive event : Type :=
| Called (c : remote_call)
| Logged (args : list value).

(** A computation: the events it produced, in order, and how it completed. *)
Definition M (A : Type) : Type := (list event * completion A)%type.

Definition ret {A : Type} (a : A) : M A := ([], Normal a).

Definition bind {A B : Type} (m : M A) (k : A -> M B) : M B :=
  match m with
  | (t, Normal a) => let (t', r) := k a in ((t ++ t')%list, r)
  | (t, Throw e) => (t, Throw e)
  end.

Definition lift {A : Type} (c : completion A) : M A := ([], c).

Definition throw {A : Type} (e : value) : M A := ([], Throw e).

(** [console.error(...args)] *)
Definition log (args : list value) : M unit := ([Logged args], Normal tt).

(** [try { m } catch (e) { handler e }] *)
Definition try_catch {A : Type} (m : M A) (handler : value -> M A) : M A :=
  match m with
  | (t, Throw e) => let (t', r) := handler e in ((t ++ t')%list, r)
  | (t, Normal a) => (t, Normal a)
  end.

Notation "x <- m ;; k" := (bind m (fun x => k))
  (at level 61, m at next level, right associativity).
Notation "m ;;; k" := (bind m (fun _ => k))
  (at level 61, right associativity).

Definition events {A : Type} (m : M A) : list event := fst m.
Definition result {A : Type} (m : M A) : completion A := snd m.

(** The remote calls among the events of a computation. *)
Definition remote_calls {A : Type} (m : M A) : list remote_call :=
  flat_map (fun ev => match ev with
                      | Called c => [c]
                      | Logged _ => []
                      end) (events m).

(** ** zod, as far as the schemas of the source use it *)

Module Zod.

Definition parsed_type (v : value) : string :=
  match v with
  | VUndefined => "undefined"
  | VNull => "null"
  | VBool _ => "boolean"
  | VNum _ => "number"
  | VStr _ => "string"
  | VArr _ => "array"
  | VObj _ | VErr _ _ _ | VRef _ => "object"
  end.

Definition is_object (v : value) : bool :=
  match v with
  | VObj _ | VErr _ _ _ | VRef _ => true
  | _ => false
  end.

Definition invalid_type (expected : string) (v : value) (path : list string)
  : value :=
  VObj [("code", VStr "invalid_type");
        ("expected", VStr expected);
        ("received", VStr (parsed_type v));
        ("path", VArr (map VStr path));
        ("message",
         VStr (match v with
               | VUndefined => "Required"
               | _ => "Expected " ++ expected ++ ", received " ++ parsed_type v
               end))].

(** The message of a [ZodError] is the list of its issues, serialised. *)
Definition ZodError (issues : list value) : value :=
  VErr "ZodError"
       (match Json.stringify [] (VArr issues) with
        | Normal (Some s) => s
        | _ => EmptyString
        end)
       [("issues", VArr issues); ("name", VStr "ZodError")].

(** Issues of [z.string()] applied to field [k] of an object. *)
Definition string_field (h : store) (v : value) (k : string) : list value :=
  match Js.own h v k with
  | VStr _ => []
  | x => [invalid_type "string" x [k]]
  end.

End Zod.

(** ** The source *)

(** The markers, byte for byte as the source file has them. *)
Definition bullet : string := "â€¢".
Definition page_marker : string := "ðŸ“„".
Definition database_marker : string := "ðŸ“Š".

(** [ContentEnvelope]: what a handler returns. *)
Record content_item : Type := { type : string; text : value }.
Record envelope : Type := { content : list content_item }.

Definition text_envelope (t : value) : envelope :=
  {| content := [ {| type := "text"; text := t |} ] |}.

Section Source.

Variable h : store.
Variable notion : collaborator.

Definition call (c : remote_call) : M value := ([Called c], respond notion c).

(** *** [schemas] *)

(** [z.object({ <field>: z.string() }).parse(args)] *)
Definition parse_string_field (field : string) (args : value)
  : completion string :=
  if Zod.is_object args then
    match Js.own h args field with
    | VStr s => Normal s
    | x => Throw (Zod.ZodError [Zod.invalid_type "string" x [field]])
    end
  else Throw (Zod.ZodError [Zod.invalid_type "object" args []]).

Definition searchPages_parse : value -> completion string :=
  parse_string_field "query".

Definition readPage_parse : value -> completion string :=
  parse_string_field "pageId".

(** Declared by the source, used by no handler. *)
Definition retrieveDatabase_parse : value -> completion string :=
  parse_string_field "databaseId".

(** The first member of the union of [schemas.notionPage]: an object of
    type "title" whose [title] is an array of objects with a string
    [plain_text].  A value that fits is rebuilt with these fields alone. *)
Definition title_run (run : value) : option value :=
  if Zod.is_object run then
    match Js.own h run "plain_text" with
    | VStr s => Some (VObj [("plain_text", VStr s)])
    | _ => None
    end
  else None.

Fixpoint title_runs (runs : list value) : option (list value) :=
  match runs with
  | [] => Some []
  | run :: rest =>
      match title_run run, title_runs rest with
      | Some r, Some rs => Some (r :: rs)
      | _, _ => None
      end
  end.

Definition title_property (v : value) : option value :=
  if Zod.is_object v && Js.is_str "title" (Js.own h v "type") then
    match Js.own h v "title" with
    | VArr runs =>
        option_map (fun rs => VObj [("type", VStr "title"); ("title", VArr rs)])
                   (title_runs runs)
    | _ => None
    end
  else None.

(** The union: the first member when the value fits it, [z.any()]
    otherwise, which hands the value on as it is. *)
Definition property_value (v : value) : value :=
  match title_property v with
  | Some rebuilt => rebuilt
  | None => v
  end.

(** [schemas.notionPage.parse(pageResponse)].  The union accepts any value,
    so only [id], [url] and the kind of [properties] are checked.  The record
    is rebuilt key by key, except for a key [__proto__], which zod leaves
    out.  The result is [Object.values(page.properties)]. *)
Definition notionPage_parse (pageResponse : value)
  : completion (list value) :=
  if Zod.is_object pageResponse then
    let properties := Js.own h pageResponse "properties" in
    match
      (Zod.string_field h pageResponse "id"
       ++ Zod.string_field h pageResponse "url"
       ++ (if Zod.is_object properties then []
           else [Zod.invalid_type "object" properties ["properties"]]))%list
    with
    | [] =>
        Normal (map (fun kv => property_value (snd kv))
                    (filter (fun kv => negb (fst kv =? "__proto__"))
                            (Js.props_of h properties)))
    | issues => Throw (Zod.ZodError issues)
    end
  else Throw (Zod.ZodError [Zod.invalid_type "object" pageResponse []]).

(** *** [formatError] *)

(** [error.body?.message || error.message] *)
Definition detail (error : value) : value :=
  Js.or_else (Js.get_opt h (Js.own h error "body") "message")
             (Js.own h error "message").

Definition formatError (error : value) : M value :=
  json <- lift (Json.stringify h error) ;;
  log [VStr "Full error:"; Json.to_value json] ;;;
  status <- lift (Js.get h error "status") ;;
  if Js.is_num 404 status then
    shown <- lift (Js.to_string h (detail error)) ;;
    ret (VStr ("Resource not found. Please check the provided ID. Details: "
               ++ shown))
  else if Js.is_num 401 status then
    shown <- lift (Js.to_string h (detail error)) ;;
    ret (VStr ("Authentication error. Please check your API token. Details: "
               ++ shown))
  else if Js.is_num 400 status then
    shown <- lift (Js.to_string h (detail error)) ;;
    ret (VStr ("Bad request. Details: " ++ shown))
  else if Js.truthy (Js.own h error "code") then
    code <- lift (Js.to_string h (Js.own h error "code")) ;;
    shown <- lift (Js.to_string h (detail error)) ;;
    ret (VStr ("API Error (" ++ code ++ "): " ++ shown))
  else
    ret (Js.or_else (detail error) (VStr "An unknown error occurred")).

(** *** [toolHandlers.search_pages] *)

(** [page.url.match(/\/([^/]+)-[^/]+$/)] *)
Definition url_match (url : value) : completion (option string) :=
  match url with
  | VStr s => Normal (Text.match_slug s)
  | VUndefined | VNull =>
      Throw (Js.TypeError ("Cannot read properties of " ++ Js.nullish_text url
                           ++ " (reading 'match')"))
  | _ => Throw (Js.TypeError "page.url.match is not a function")
  end.

(** [decodeURIComponent(urlMatch[1].replace(/-/g, ' '))] *)
Definition slug_title (group : string) : completion value :=
  match Text.decodeURIComponent (Text.replace_dashes " " group) with
  | Some t => Normal (VStr t)
  | None => Throw (VErr "URIError" "URI malformed" [])
  end.

(** [titleProperty?.title?.[0]?.plain_text] for
    [titleProperty = page.properties.title || page.properties.Name] *)
Definition property_title (properties : value) : value :=
  let titleProperty :=
    Js.or_else (Js.own h properties "title") (Js.own h properties "Name") in
  Js.get_opt h (Js.get_opt h (Js.get_opt h titleProperty "title") "0")
             "plain_text".

(** The body of the [try] block: the value of [title] when it completes. *)
Definition extract_title (page : value) : completion value :=
  match Js.get h page "url" with
  | Throw e => Throw e
  | Normal url =>
      match url_match url with
      | Throw e => Throw e
      | Normal urlMatch =>
          match
            match urlMatch with
            | Some group => slug_title group
            | None => Normal (VStr "Untitled")
            end
          with
          | Throw e => Throw e
          | Normal title =>
              let properties := Js.own h page "properties" in
              if Js.is_str "Untitled" title && Js.truthy properties then
                if Js.truthy (property_title properties)
                then Normal (property_title properties)
                else Normal title
              else Normal title
          end
      end
  end.

(** The title shown for a page; an exception inside the [try] block is
    logged and leaves the initial ["Untitled"]. *)
Definition page_title (page : value) : M value :=
  try_catch (lift (extract_title page))
            (fun e => log [VStr "Error extracting title:"; e] ;;;
                      ret (VStr "Untitled")).

Definition result_line (title url : string) : string :=
  bullet ++ " " ++ title ++ Text.nl ++ "  Link: " ++ url.

(** The callback of [response.results.map]: the template literal converts
    the title, then reads and converts [page.url], outside the [try]
    block. *)
Definition format_page (page : value) : M string :=
  title <- page_title page ;;
  title <- lift (Js.to_string h title) ;;
  url <- lift (Js.get h page "url") ;;
  url <- lift (Js.to_string h url) ;;
  ret (result_line title url).

Fixpoint format_pages (pages : list value) : M (list string) :=
  match pages with
  | [] => ret []
  | page :: rest =>
      line <- format_page page ;;
      lines <- format_pages rest ;;
      ret (line :: lines)
  end.

Definition search_pages (args : value) : M envelope :=
  query <- lift (searchPages_parse args) ;;
  log [VStr ("Searching for: " ++ query)] ;;;
  response <- call (search (VStr query)) ;;
  results <- lift (Js.get h response "results") ;;
  if negb (Js.truthy results) || Js.is_num 0 (Js.own h results "length") then
    ret (text_envelope
           (VStr ("No pages found matching " ++ Text.dq ++ query ++ Text.dq)))
  else
    match results with
    | VArr pages =>
        lines <- format_pages pages ;;
        count <- lift (Js.to_string h (Js.own h results "length")) ;;
        ret (text_envelope
               (VStr ("Found " ++ count
                      ++ " pages matching " ++ Text.dq ++ query ++ Text.dq
                      ++ ":" ++ Text.nl ++ Text.nl
                      ++ String.concat (Text.nl ++ Text.nl) lines)))
    | _ => throw (Js.TypeError "response.results.map is not a function")
    end.

(** *** [toolHandlers.read_page] *)

(** [Object.values(page.properties).find((prop) => prop.type === "title")] *)
Fixpoint find_title (props : list value) : completion value :=
  match props with
  | [] => Normal VUndefined
  | prop :: rest =>
      match Js.get h prop "type" with
      | Throw e => Throw e
      | Normal t => if Js.is_str "title" t then Normal prop else find_title rest
      end
  end.

(** [titleProp?.type === "title"
      ? titleProp.title[0]?.plain_text || "Untitled" : "Untitled"] *)
Definition resolve_title (titleProp : value) : completion value :=
  if Js.is_str "title" (Js.get_opt h titleProp "type") then
    match Js.get h (Js.own h titleProp "title") "0" with
    | Throw e => Throw e
    | Normal first =>
        Normal (Js.or_else (Js.get_opt h first "plain_text") (VStr "Untitled"))
    end
  else Normal (VStr "Untitled").

(** [v.replace(/-/g, "")] on the value of [block.id] *)
Definition strip_dashes (id : value) : completion string :=
  match id with
  | VStr s => Normal (Text.replace_dashes EmptyString s)
  | VUndefined | VNull =>
      Throw (Js.TypeError ("Cannot read properties of " ++ Js.nullish_text id
                           ++ " (reading 'replace')"))
  | _ => Throw (Js.TypeError "block.id.replace is not a function")
  end.

(** [items.map((text) => text.plain_text)] *)
Fixpoint plain_texts (items : list value) : completion (list value) :=
  match items with
  | [] => Normal []
  | item :: rest =>
      match Js.get h item "plain_text" with
      | Throw e => Throw e
      | Normal t =>
          match plain_texts rest with
          | Throw e => Throw e
          | Normal ts => Normal (t :: ts)
          end
      end
  end.

(** [block[type]?.rich_text?.map((text) => text.plain_text).join("") || ""]:
    the type is converted to the property key first. *)
Definition textContent (block type : value) : completion string :=
  match Js.to_string h type with
  | Throw e => Throw e
  | Normal key =>
      let rich_text := Js.get_opt h (Js.own h block key) "rich_text" in
      if Js.nullish rich_text then Normal EmptyString
      else
        match rich_text with
        | VArr items =>
            match plain_texts items with
            | Throw e => Throw e
            | Normal ts => Js.join h EmptyString ts
            end
        | _ =>
            Throw (Js.TypeError "block[type]?.rich_text?.map is not a function")
        end
  end.

(** The [switch (type)] of the block loop. *)
Definition formattedContent (block type : value) (textContent : string)
  : string :=
  if Js.is_str "paragraph" type || Js.is_str "heading_1" type
     || Js.is_str "heading_2" type || Js.is_str "heading_3" type
  then textContent
  else if Js.is_str "bulleted_list_item" type
          || Js.is_str "numbered_list_item" type
  then bullet ++ " " ++ textContent
  else if Js.is_str "to_do" type
  then (if Js.truthy (Js.get_opt h (Js.own h block "to_do") "checked")
        then "[x]" else "[ ]") ++ " " ++ textContent
  else if Js.is_str "code" type
  then "```" ++ Text.nl ++ textContent ++ Text.nl ++ "```"
  else textContent.

(** The three lists the loop fills. *)
Record rendering : Type := {
  childPages : list string;
  childDatabases : list string;
  contentBlocks : list string
}.

Definition child_line (marker title id : string) : string :=
  marker ++ " " ++ title ++ " (ID: " ++ id ++ ")".

(** A child block: its title or the fallback, converted, then its
    identifier without dashes. *)
Definition child_entry (block : value) (key marker fallback : string)
  : completion string :=
  match Js.get h (Js.own h block key) "title" with
  | Throw e => Throw e
  | Normal title =>
      match Js.to_string h (Js.or_else title (VStr fallback)) with
      | Throw e => Throw e
      | Normal title =>
          match strip_dashes (Js.own h block "id") with
          | Throw e => Throw e
          | Normal id => Normal (child_line marker title id)
          end
      end
  end.

(** One iteration of [for (const block of blocksResponse.results)]. *)
Definition render_block (st : rendering) (block : value)
  : completion rendering :=
  match Js.get h block "type" with
  | Throw e => Throw e
  | Normal type =>
      if Js.is_str "child_page" type then
        match child_entry block "child_page" page_marker "Untitled Page" with
        | Throw e => Throw e
        | Normal line =>
            Normal {| childPages := (childPages st ++ [line])%list;
                      childDatabases := childDatabases st;
                      contentBlocks := contentBlocks st |}
        end
      else if Js.is_str "child_database" type then
        match child_entry block "child_database" database_marker
                          "Untitled Database" with
        | Throw e => Throw e
        | Normal line =>
            Normal {| childPages := childPages st;
                      childDatabases := (childDatabases st ++ [line])%list;
                      contentBlocks := contentBlocks st |}
        end
      else
        match textContent block type with
        | Throw e => Throw e
        | Normal t =>
            let formatted := formattedContent block type t in
            Normal {| childPages := childPages st;
                      childDatabases := childDatabases st;
                      contentBlocks :=
                        if formatted =? EmptyString then contentBlocks st
                        else (contentBlocks st ++ [formatted])%list |}
        end
  end.

Fixpoint render_blocks (st : rendering) (blocks : list value)
  : completion rendering :=
  match blocks with
  | [] => Normal st
  | block :: rest =>
      match render_block st block with
      | Throw e => Throw e
      | Normal st' => render_blocks st' rest
      end
  end.

(** What [for ... of] iterates over. *)
Definition iterate (v : value) : completion (list value) :=
  match v with
  | VArr items => Normal items
  | VStr s => Normal (map VStr (Text.chars s))
  | _ => Throw (Js.TypeError "blocksResponse.results is not iterable")
  end.

(** The assembly of [output], before [trim]. *)
Definition assemble (title : string) (st : rendering) : string :=
  "# " ++ title ++ Text.nl ++ Text.nl
  ++ (match contentBlocks st with
      | [] => EmptyString
      | lines => String.concat Text.nl lines ++ Text.nl ++ Text.nl
      end)
  ++ (match childPages st with
      | [] => EmptyString
      | lines =>
          "## Child Pages" ++ Text.nl ++ String.concat Text.nl lines
          ++ Text.nl ++ Text.nl
      end)
  ++ (match childDatabases st with
      | [] => EmptyString
      | lines =>
          "## Child Databases" ++ Text.nl ++ String.concat Text.nl lines
          ++ Text.nl
      end).

(** The renderer: everything between the two awaited responses and the
    returned text.  The title is converted when the output is put together,
    after the loop. *)
Definition render (blocksResponse pageResponse : value) : completion string :=
  match notionPage_parse pageResponse with
  | Throw e => Throw e
  | Normal props =>
      match find_title props with
      | Throw e => Throw e
      | Normal titleProp =>
          match resolve_title titleProp with
          | Throw e => Throw e
          | Normal title =>
              match Js.get h blocksResponse "results" with
              | Throw e => Throw e
              | Normal results =>
                  match iterate results with
                  | Throw e => Throw e
                  | Normal blocks =>
                      match
                        render_blocks {| childPages := [];
                                         childDatabases := [];
                                         contentBlocks := [] |} blocks
                      with
                      | Throw e => Throw e
                      | Normal st =>
                          match Js.to_string h title with
                          | Throw e => Throw e
                          | Normal title =>
                              Normal (Text.trim (assemble title st))
                          end
                      end
                  end
              end
          end
      end
  end.

(** [Promise.all] of the two calls: both are issued, and the first
    rejection wins. *)
Definition list_and_retrieve (pageId : string) : M (value * value) :=
  ([Called (blocks_children_list (VStr pageId));
    Called (pages_retrieve (VStr pageId))],
   match respond notion (blocks_children_list (VStr pageId)),
         respond notion (pages_retrieve (VStr pageId)) with
   | Normal blocksResponse, Normal pageResponse =>
       Normal (blocksResponse, pageResponse)
   | Throw e, Normal _ => Throw e
   | Normal _, Throw e => Throw e
   | Throw e1, Throw e2 =>
       Throw (if retrieve_settles_first notion then e2 else e1)
   end).

Definition read_page (args : value) : M envelope :=
  pageId <- lift (readPage_parse args) ;;
  try_catch
    (responses <- list_and_retrieve pageId ;;
     output <- lift (render (fst responses) (snd responses)) ;;
     ret (text_envelope (VStr output)))
    (fun error =>
       log [VStr "Error reading page:"; error] ;;;
       message <- formatError error ;;
       ret (text_envelope message)).

(** *** [toolHandlers.query_database] and [toolHandlers.retrieve_database] *)

(** [const { ... } = args as any]: destructuring [undefined] or [null]
    throws; nothing else is checked. *)
Definition destructure (args : value) : completion value :=
  if Js.nullish args
  then Throw (Js.TypeError ("Cannot destructure '" ++ Js.nullish_text args
                            ++ "' as it is " ++ Js.nullish_text args ++ "."))
  else Normal args.

Definition query_database (args : value) : M envelope :=
  args <- lift (destructure args) ;;
  let databaseId := Js.own h args "databaseId" in
  let filter := Js.own h args "filter" in
  let sort := Js.own h args "sort" in
  let sorts := if Js.truthy sort then VArr [sort] else VUndefined in
  try_catch
    (response <- call (databases_query databaseId filter sorts) ;;
     results <- lift (Js.get h response "results") ;;
     json <- lift (Json.stringify h results) ;;
     ret (text_envelope (Json.to_value json)))
    (fun error =>
       log [VStr "Error querying database:"; error] ;;;
       message <- formatError error ;;
       message <- lift (Js.to_string h message) ;;
       ret (text_envelope (VStr ("Error querying database: " ++ message)))).

Definition retrieve_database (args : value) : M envelope :=
  args <- lift (destructure args) ;;
  let databaseId := Js.own h args "databaseId" in
  try_catch
    (response <- call (databases_retrieve databaseId) ;;
     json <- lift (Json.stringify h response) ;;
     ret (text_envelope (Json.to_value json)))
    (fun error =>
       log [VStr "Error retrieving database:"; error] ;;;
       message <- formatError error ;;
       ret (text_envelope message)).

(** *** The [CallToolRequestSchema] handler *)

(** What [toolHandlers[name]] finds: one of the four handlers, or a member
    the object literal inherits from [Object.prototype]. *)
Inductive handler : Type :=
| Tool (run : value -> M envelope)
| Inherited (member : string).

Definition Object_prototype : list string :=
  ["constructor"; "__defineGetter__"; "__defineSetter__"; "hasOwnProperty";
   "__lookupGetter__"; "__lookupSetter__"; "isPrototypeOf";
   "propertyIsEnumerable"; "toString"; "valueOf"; "__proto__";
   "toLocaleString"].

Definition toolHandlers (name : string) : option handler :=
  if name =? "search_pages" then Some (Tool search_pages)
  else if name =? "read_page" then Some (Tool read_page)
  else if name =? "query_database" then Some (Tool query_database)
  else if name =? "retrieve_database" then Some (Tool retrieve_database)
  else if existsb (String.eqb name) Object_prototype
       then Some (Inherited name)
  else None.

(** What the request handler returns: the envelope of a tool, or what an
    inherited member returns, a value or ([Boxed]) the wrapper object of a
    primitive. *)
Inductive reply : Type :=
| Envelope (e : envelope)
| Raw (v : value)
| Boxed (v : value).

Definition no_receiver : value :=
  Js.TypeError "Cannot convert undefined or null to object".

Definition is_primitive (v : value) : bool :=
  match v with
  | VUndefined | VNull | VBool _ | VNum _ | VStr _ => true
  | _ => false
  end.

(** [handler(args)] for an inherited member: the built-in is called without
    a receiver.  [toString] names the missing receiver, [constructor] is
    [Object], which makes an object of its argument, [isPrototypeOf] answers
    for a primitive before it looks at the receiver, [hasOwnProperty] and
    [propertyIsEnumerable] convert the argument to a key first, [__proto__]
    is an object and no function; the others fail on the receiver. *)
Definition inherited (member : string) (args : value) : completion reply :=
  if member =? "toString" then Normal (Raw (VStr "[object Undefined]"))
  else if member =? "constructor" then
    Normal (if Js.nullish args then Raw (VObj [])
            else if is_primitive args then Boxed args
            else Raw args)
  else if member =? "isPrototypeOf" then
    if is_primitive args then Normal (Raw (VBool false)) else Throw no_receiver
  else if (member =? "hasOwnProperty") || (member =? "propertyIsEnumerable")
  then
    match Js.to_string h args with
    | Throw e => Throw e
    | Normal _ => Throw no_receiver
    end
  else if member =? "__proto__"
  then Throw (Js.TypeError "handler is not a function")
  else Throw no_receiver.

(** A completion [Throw] of this computation is what the transport sees as
    a failed request. *)
Definition call_tool (name : string) (args : value) : M reply :=
  try_catch
    (match toolHandlers name with
     | Some (Tool run) => env <- run args ;; ret (Envelope env)
     | Some (Inherited member) => lift (inherited member args)
     | None => throw (VErr "Error" ("Unknown tool: " ++ name) [])
     end)
    (fun error =>
       log [VStr ("Error executing tool " ++ name ++ ":"); error] ;;;
       throw error).

End Source.

(** ** Vocabulary of the statements, and sample data *)

Definition is_string (v : value) : Prop := exists s, v = VStr s.

(** A field of type [string | undefined], as the Notion client declares the
    [message] and the [code] of the failures it reports. *)
Definition optional_string (v : value) : Prop := v = VUndefined \/ is_string v.

(** The text of such a field inside a template literal. *)
Definition shown_text (v : value) : string :=
  match v with
  | VStr s => s
  | _ => "undefined"
  end.

(** Failures as the Notion client reports them: [Error] instances that
    carry [code], [status], [headers] and the raw [body]. *)
Definition APIResponseError (status : Z) (code message : string) : value :=
  VErr "APIResponseError" message
       [("code", VStr code); ("status", VNum status);
        ("headers", VObj []);
        ("body", VStr ("{" ++ Js.quote "object" ++ ":" ++ Js.quote "error"
                       ++ "," ++ Js.quote "message" ++ ":" ++ Js.quote message
                       ++ "}"))].

Definition page_not_found : value :=
  APIResponseError 404 "object_not_found" "Could not find page.".

Definition unauthorized : value :=
  APIResponseError 401 "unauthorized" "API token is invalid.".

(** A failure whose detail is nested, as [formatError] looks for it. *)
Definition nested_failure : value :=
  VObj [("status", VNum 404);
        ("body", VObj [("message", VStr "Could not find database.")]);
        ("message", VStr "Request failed.")].

(** A collaborator that rejects every call. *)
Definition rejecting (e : value) : collaborator :=
  {| respond := fun _ => Throw e; retrieve_settles_first := false |}.

(** A collaborator that resolves every call with the same value. *)
Definition resolving (v : value) : collaborator :=
  {| respond := fun _ => Normal v; retrieve_settles_first := false |}.

(** The page and the blocks of the end-to-end scenario of [read_page]. *)
Definition text_run (s : string) : value :=
  VObj [("type", VStr "text"); ("plain_text", VStr s)].

Definition notes_page : value :=
  VObj [("object", VStr "page");
        ("id", VStr "59833787-2cf9-4fdf-8782-e53db20768a5");
        ("url",
         VStr "https://www.notion.so/Notes-598337872cf94fdf8782e53db20768a5");
        ("properties",
         VObj [("title",
                VObj [("id", VStr "title");
                      ("type", VStr "title");
                      ("title", VArr [text_run "Notes"])])])].

Definition notes_blocks : value :=
  VObj [("object", VStr "list");
        ("results",
         VArr [VObj [("object", VStr "block");
                     ("id", VStr "c02fc1d3-db8b-45c5-a222-27595b15aea7");
                     ("type", VStr "paragraph");
                     ("paragraph",
                      VObj [("rich_text", VArr [text_run "Hello"])])];
               VObj [("object", VStr "block");
                     ("id", VStr "acc7eb06-05cd-4603-a384-5e1e4f1f4e72");
                     ("type", VStr "to_do");
                     ("to_do", VObj [("rich_text", VArr [text_run "Buy milk"]);
                                     ("checked", VBool false)])]])].

Definition notes_remote : collaborator :=
  {| respond := fun c =>
       match c with
       | blocks_children_list _ => Normal notes_blocks
       | pages_retrieve _ => Normal notes_page
       | _ => Throw page_not_found
       end;
     retrieve_settles_first := false |}.

Definition nothing_rendered : rendering :=
  {| childPages := []; childDatabases := []; contentBlocks := [] |}.

(** The search summarizer as section 4.5 of the specification words it, to
    be compared with [page_title]: (a) the slug decoded from the URL; (b)
    failing that, the first text run of a title-typed property or of the
    property conventionally named "Name"; failing both, "Untitled". *)
Definition first_text_run (h : store) (prop : value) : value :=
  Js.get_opt h (Js.get_opt h (Js.get_opt h prop "title") "0") "plain_text".

Definition title_typed_or_named (h : store) (kv : string * value) : bool :=
  Js.is_str "title" (Js.get_opt h (snd kv) "type") || (fst kv =? "Name").

Definition stated_title (h : store) (page : value) : value :=
  match
    match Js.get_opt h page "url" with
    | VStr url =>
        match Text.match_slug url with
        | Some group => Text.decodeURIComponent (Text.replace_dashes " " group)
        | None => None
        end
    | _ => None
    end
  with
  | Some slug => VStr slug
  | None =>
      match find (title_typed_or_named h)
                 (Js.props_of h (Js.get_opt h page "properties")) with
      | Some kv =>
          if Js.truthy (first_text_run h (snd kv))
          then first_text_run h (snd kv)
          else VStr "Untitled"
      | None => VStr "Untitled"
      end
  end.

(** A database row whose title column was renamed, on a URL without slug. *)
Definition renamed_title_page : value :=
  VObj [("object", VStr "page");
        ("id", VStr "0b2f2a9e-8d1c-4c5e-9f6a-3e7d5c1b2a40");
        ("url", VStr "https://www.notion.so/0b2f2a9e8d1c4c5e9f6a3e7d5c1b2a40");
        ("properties",
         VObj [("Task",
                VObj [("id", VStr "title");
                      ("type", VStr "title");
                      ("title", VArr [text_run "Plan"])])])].

Definition roadmap_page : value :=
  VObj [("object", VStr "page");
        ("id", VStr "7c1d9b52-51f0-4b0e-8a39-0d1f6e2c4b11");
        ("url", VStr "https://www.notion.so/Q3-Roadmap-abc123");
        ("properties", VObj [])].

(** [needle] occurs somewhere in [s]. *)
Fixpoint occurs (needle s : string) : bool :=
  prefix needle s
  || match s with
     | EmptyString => false
     | String _ rest => occurs needle rest
     end.

(** The block types the loop of [read_page] names. *)
Definition recognized (type : value) : bool :=
  existsb (fun name => Js.is_str name type)
          ["child_page"; "child_database"; "paragraph"; "heading_1";
           "heading_2"; "heading_3"; "bulleted_list_item";
           "numbered_list_item"; "to_do"; "code"].

(** The text runs of a block, [block[key]?.rich_text] for the key its type
    converts to, and what the extraction relies on: they are absent, or an
    array without [undefined] or [null] entries whose [plain_text] converts
    to a text, as every value but an object with a [toString] property of
    its own does. *)
Definition text_runs (h : store) (block : value) (key : string) : value :=
  Js.get_opt h (Js.own h block key) "rich_text".

Definition runs_well_formed (h : store) (rich_text : value) : Prop :=
  Js.nullish rich_text = true
  \/ exists items,
       rich_text = VArr items
       /\ Forall (fun item =>
                    Js.nullish item = false
                    /\ Js.converts h (Js.own h item "plain_text") = true)
                 items.

Definition block_of (type : string) (payload : list (string * value)) : value :=
  VObj [("object", VStr "block");
        ("id", VStr "d3c1a7e2-0f4b-4b7e-9a55-6a1b2c3d4e5f");
        ("type", VStr type);
        (type, VObj payload)].

(** A failure object that refers to itself: cell 0 is the error, its
    [request] (cell 1) points back to it. *)
Definition hang_up_store : store :=
  [[("message", VStr "socket hang up"); ("request", VRef 1)];
   [("method", VStr "POST"); ("error", VRef 0)]].

(** What a match of [/\/([^/]+)-[^/]+$/] with first group [group] is: the
    text ends with a slash, the group, a dash and a remainder, where group
    and remainder are non-empty and free of slashes. *)
Definition no_slash (s : string) : Prop := Text.last_segment s = None.

Definition slug_match (url group : string) : Prop :=
  exists before remainder,
    url = before ++ String "/" (group ++ String "-" remainder)
    /\ group <> EmptyString /\ remainder <> EmptyString
    /\ no_slash (group ++ String "-" remainder).

(** Computations that issue no remote call. *)
Definition quiet {A : Type} (m : M A) : Prop := remote_calls m = [].

(** ** Induction on values, through the lists they nest *)

Section ValueInduction.

Variable P : value -> Prop.

Hypothesis case_undefined : P VUndefined.
Hypothesis case_null : P VNull.
Hypothesis case_bool : forall b, P (VBool b).
Hypothesis case_num : forall n, P (VNum n).
Hypothesis case_str : forall s, P (VStr s).
Hypothesis case_arr : forall items, Forall P items -> P (VArr items).
Hypothesis case_obj :
  forall props, Forall (fun kv => P (snd kv)) props -> P (VObj props).
Hypothesis case_err :
  forall name message props,
    Forall (fun kv => P (snd kv)) props -> P (VErr name message props).
Hypothesis case_ref : forall a, P (VRef a).

Fixpoint value_nested_ind (v : value) : P v :=
  match v with
  | VUndefined => case_undefined
  | VNull => case_null
  | VBool b => case_bool b
  | VNum n => case_num n
  | VStr s => case_str s
  | VArr items =>
      case_arr
        ((fix all (l : list value) : Forall P l :=
            match l with
            | [] => Forall_nil _
            | x :: r => Forall_cons x (value_nested_ind x) (all r)
            end) items)
  | VObj props =>
      case_obj
        ((fix all (l : list (string * value))
            : Forall (fun kv => P (snd kv)) l :=
            match l with
            | [] => Forall_nil _
            | kv :: r =>
                Forall_cons (P := fun kv => P (snd kv)) kv
                            (value_nested_ind (snd kv)) (all r)
            end) props)
  | VErr name message props =>
      case_err name message
        ((fix all (l : list (string * value))
            : Forall (fun kv => P (snd kv)) l :=
            match l with
            | [] => Forall_nil _
            | kv :: r =>
                Forall_cons (P := fun kv => P (snd kv)) kv
                            (value_nested_ind (snd kv)) (all r)
            end) props)
  | VRef a => case_ref a
  end.

End ValueInduction.


(** ** The tool catalog and the start of the process *)

(** One entry of [inputSchema.properties]. *)
Record parameter : Type := {
  parameter_name : string;
  parameter_type : string;
  parameter_description : string
}.

(** [inputSchema]: always of type "object". *)
Record input_schema : Type := {
  properties : list parameter;
  required : list string
}.

Record tool_definition : Type := {
  name : string;
  description : string;
  inputSchema : input_schema
}.

Definition TOOL_DEFINITIONS : list tool_definition :=
  [ {| name := "search_pages";
       description := "Search through Notion pages";
       inputSchema :=
         {| properties :=
              [ {| parameter_name := "query"; parameter_type := "string";
                   parameter_description := "Search query" |} ];
            required := ["query"] |} |};
    {| name := "read_page";
       description :=
         "Read a regular page's content (not for databases - use "
         ++ "retrieve_database for databases). Shows block IDs with their "
         ++ "types (needed for block operations)";
       inputSchema :=
         {| properties :=
              [ {| parameter_name := "pageId"; parameter_type := "string";
                   parameter_description := "ID of the page to read" |} ];
            required := ["pageId"] |} |};
    {| name := "query_database";
       description := "Query a database";
       inputSchema :=
         {| properties :=
              [ {| parameter_name := "databaseId"; parameter_type := "string";
                   parameter_description := "ID of the database" |};
                {| parameter_name := "filter"; parameter_type := "object";
                   parameter_description := "Filter conditions" |};
                {| parameter_name := "sort"; parameter_type := "object";
                   parameter_description := "Sort conditions" |} ];
            required := ["databaseId"] |} |};
    {| name := "retrieve_database";
       description := "Retrieve a database's metadata";
       inputSchema :=
         {| properties :=
              [ {| parameter_name := "databaseId"; parameter_type := "string";
                   parameter_description := "ID of the database to retrieve" |} ];
            required := ["databaseId"] |} |} ].

(** The [ListToolsRequestSchema] handler. *)
Definition list_tools : M (list tool_definition) :=
  log [VStr "Tools requested by client"] ;;;
  ret TOOL_DEFINITIONS.

(** What the process does when it starts: connect the transport, write a
    diagnostic line, leave with an exit code. *)
Inductive startup_event : Type :=
| Connect
| Diagnostic (args : list value)
| Exit (code : Z).

(** [main()], given the value of [process.env.NOTION_API_KEY] and how
    [server.connect(transport)] settles. *)
Definition main (api_key : value) (connect : completion unit)
  : list startup_event * completion unit :=
  if negb (Js.truthy api_key) then
    ([], Throw (VErr "Error" "NOTION_API_KEY environment variable is required"
                     []))
  else
    match connect with
    | Normal _ =>
        ([Connect; Diagnostic [VStr "Notion MCP Server running on stdio"]],
         Normal tt)
    | Throw e => ([Connect], Throw e)
    end.

(** [main().catch((error) => { console.error(...); process.exit(1); })] *)
Definition start (api_key : value) (connect : completion unit)
  : list startup_event :=
  match main api_key connect with
  | (t, Normal _) => t
  | (t, Throw e) => (t ++ [Diagnostic [VStr "Fatal error:"; e]; Exit 1])%list
  end.

(** ** Further vocabulary *)

(** Values without references into the store: plain trees. *)
Fixpoint ref_free (v : value) : bool :=
  match v with
  | VArr items => forallb ref_free items
  | VObj props | VErr _ _ props => forallb (fun kv => ref_free (snd kv)) props
  | VRef _ => false
  | _ => true
  end.

(** The exceptions the handlers raise themselves. *)
Definition native_error (e : value) : Prop :=
  (exists message, e = Js.TypeError message)
  \/ (exists issues, e = Zod.ZodError issues /\ forallb ref_free issues = true).

(** A text free of the byte [c]. *)
Definition free_of (c : ascii) (s : string) : bool :=
  forallb (fun c' => negb (Ascii.eqb c' c)) (list_ascii_of_string s).

(** How a title becomes a slug: spaces turn into dashes. *)
Fixpoint dashes_for_spaces (s : string) : string :=
  match s with
  | EmptyString => EmptyString
  | String c r =>
      String (if Ascii.eqb c " " then "-"%char else c) (dashes_for_spaces r)
  end.

(** The blocks of a list that carry a given type. *)
Definition blocks_of_type (h : store) (type : string) (blocks : list value)
  : list value :=
  filter (fun block => Js.is_str type (Js.own h block "type")) blocks.

Definition is_ascii_space (c : ascii) : bool := Text.ws1 c.

Definition first_byte (s : string) : option ascii :=
  match s with
  | String c _ => Some c
  | EmptyString => None
  end.

Definition last_byte (s : string) : option ascii :=
  last (map Some (list_ascii_of_string s)) None.

(** A page whose result line can be written: the page is there, and its
    URL and the title its properties give convert to text. *)
Definition presentable (h : store) (page : value) : Prop :=
  Js.nullish page = false
  /\ Js.converts h (Js.own h page "url") = true
  /\ Js.converts h (property_title h (Js.own h page "properties")) = true.

(** * Properties *)

Ltac split_ifs :=
  repeat match goal with
         | |- context [if ?b then _ else _] => destruct b eqn:?
         end.



(** ** The serialiser never runs out of fuel *)

Lemma elements_fuel (rec : string -> value -> Json.outcome)
      (items : list value) :
  Forall (fun v => forall ind, rec ind v <> None) items ->
  forall ind, Json.elements rec ind items <> None.
Proof.
  induction 1 as [| v rest Hv _ IH]; intros ind; cbn; [discriminate |].
  specialize (Hv ind). specialize (IH ind).
  destruct (rec ind v) as [[t | e] |]; try discriminate; [| contradiction].
  destruct (Json.elements rec ind rest) as [[ts | e] |];
    try discriminate; contradiction.
Qed.

Lemma members_fuel (rec : string -> value -> Json.outcome)
      (props : list (string * value)) :
  Forall (fun kv => forall ind, rec ind (snd kv) <> None) props ->
  forall ind, Json.members rec ind props <> None.
Proof.
  induction 1 as [| [k v] rest Hv _ IH]; intros ind; cbn; [discriminate |].
  cbn in Hv. specialize (Hv ind). specialize (IH ind).
  destruct (rec ind v) as [[t | e] |]; try discriminate; [| contradiction].
  destruct (Json.members rec ind rest) as [[ts | e] |];
    try discriminate; contradiction.
Qed.

Lemma finish_fuel (o c ind : string) (r : option (completion (list string))) :
  r <> None -> Json.finish o c ind r <> None.
Proof.
  destruct r as [[ts | e] |]; cbn; intros H; try discriminate; contradiction.
Qed.

Lemma stack_bound (n : nat) (stack : list nat) :
  NoDup stack -> (forall a, In a stack -> a < n) -> length stack <= n.
Proof.
  intros Hnd Hlt.
  rewrite <- (length_seq n 0).
  apply NoDup_incl_length; [exact Hnd |].
  intros a Ha. apply in_seq. specialize (Hlt a Ha). lia.
Qed.

Lemma ser_fuel (h : store) (fuel : nat) :
  forall stack,
    NoDup stack -> (forall a, In a stack -> a < length h) ->
    length h <= length stack + fuel ->
    forall v ind, Json.ser h fuel stack ind v <> None.
Proof.
  induction fuel as [| fuel IH]; intros stack Hnd Hlt Hlen v;
    induction v using value_nested_ind; intros ind; cbn;
    try discriminate;
    try (apply finish_fuel; first [apply elements_fuel | apply members_fuel];
         assumption).
  - destruct (existsb (Nat.eqb a) stack) eqn:Hin; [discriminate |].
    destruct (nth_error h a) as [props |] eqn:Hcell; [| discriminate].
    exfalso.
    assert (Ha : a < length h) by (apply nth_error_Some; congruence).
    assert (Hbound : length (a :: stack) <= length h).
    { apply stack_bound.
      - constructor; [| exact Hnd].
        intros Hmem. assert (existsb (Nat.eqb a) stack = true); [| congruence].
        apply existsb_exists. exists a. split; [exact Hmem | apply Nat.eqb_refl].
      - intros b [<- | Hb]; auto. }
    cbn in Hbound. lia.
  - destruct (existsb (Nat.eqb a) stack) eqn:Hin; [discriminate |].
    destruct (nth_error h a) as [props |] eqn:Hcell; [| discriminate].
    apply finish_fuel, members_fuel.
    assert (Ha : a < length h) by (apply nth_error_Some; congruence).
    apply Forall_forall. intros kv _ ind'. apply IH.
    + constructor; [| exact Hnd].
      intros Hmem. assert (existsb (Nat.eqb a) stack = true); [| congruence].
      apply existsb_exists. exists a. split; [exact Hmem | apply Nat.eqb_refl].
    + intros b [<- | Hb]; auto.
    + cbn. lia.
Qed.

(** [JSON.stringify] is decided by the traversal alone: the fuel given by the
    size of the store is never used up. *)
Lemma stringify_ser (h : store) (v : value) :
  Json.ser h (length h) [] EmptyString v = Some (Json.stringify h v).
Proof.
  unfold Json.stringify.
  destruct (Json.ser h (length h) [] EmptyString v) eqn:Hser; [reflexivity |].
  exfalso. revert Hser. apply ser_fuel.
  - constructor.
  - intros a [].
  - cbn. lia.
Qed.


(** ** Events of a computation *)

Lemma remote_calls_bind {A B : Type} (m : M A) (k : A -> M B) :
  remote_calls (bind m k)
  = (remote_calls m
     ++ match result m with
        | Normal a => remote_calls (k a)
        | Throw _ => []
        end)%list.
Proof.
  destruct m as [t [a | e]]; unfold remote_calls, events, result, bind; cbn.
  - destruct (k a) as [t' r]. cbn. apply flat_map_app.
  - symmetry. apply app_nil_r.
Qed.

Lemma remote_calls_try_catch {A : Type} (m : M A) (handler : value -> M A) :
  remote_calls (try_catch m handler)
  = (remote_calls m
     ++ match result m with
        | Normal _ => []
        | Throw e => remote_calls (handler e)
        end)%list.
Proof.
  destruct m as [t [a | e]]; unfold remote_calls, events, result, try_catch; cbn.
  - symmetry. apply app_nil_r.
  - destruct (handler e) as [t' r]. cbn. apply flat_map_app.
Qed.

Lemma result_bind {A B : Type} (m : M A) (k : A -> M B) :
  result (bind m k)
  = match result m with
    | Normal a => result (k a)
    | Throw e => Throw e
    end.
Proof.
  destruct m as [t [a | e]]; unfold result, bind; cbn; [| reflexivity].
  destruct (k a); reflexivity.
Qed.

Lemma result_try_catch {A : Type} (m : M A) (handler : value -> M A) :
  result (try_catch m handler)
  = match result m with
    | Normal a => Normal a
    | Throw e => result (handler e)
    end.
Proof.
  destruct m as [t [a | e]]; unfold result, try_catch; cbn; [reflexivity |].
  destruct (handler e); reflexivity.
Qed.

(** Computations that issue no remote call. *)

Lemma quiet_ret {A : Type} (a : A) : quiet (ret a).
Proof. reflexivity. Qed.

Lemma quiet_lift {A : Type} (c : completion A) : quiet (lift c).
Proof. reflexivity. Qed.

Lemma quiet_log (args : list value) : quiet (log args).
Proof. reflexivity. Qed.

Lemma quiet_bind {A B : Type} (m : M A) (k : A -> M B) :
  quiet m -> (forall a, quiet (k a)) -> quiet (bind m k).
Proof.
  unfold quiet. intros Hm Hk. rewrite remote_calls_bind, Hm.
  destruct (result m); [apply Hk | reflexivity].
Qed.

(** [formatError] talks to the diagnostic channel only. *)
Lemma formatError_no_calls (h : store) (error : value) :
  remote_calls (formatError h error) = [].
Proof.
  unfold formatError.
  repeat (apply quiet_bind; [first [apply quiet_lift | apply quiet_log] |];
          intro).
  split_ifs;
    repeat (apply quiet_bind; [apply quiet_lift |]; intro);
    apply quiet_ret.
Qed.

Lemma quiet_formatError (h : store) (error : value) :
  quiet (formatError h error).
Proof. apply formatError_no_calls. Qed.

Create HintDb quiet.
#[export] Hint Resolve quiet_ret quiet_lift quiet_log quiet_formatError : quiet.
#[export] Hint Extern 2 (quiet (bind _ _)) =>
  apply quiet_bind; [| intro] : quiet.

(** One guarded remote call: the call is the only one, whatever follows it
    and whatever the [catch] block does, as long as both are quiet. *)
Lemma one_call {A : Type} (notion : collaborator) (c : remote_call)
      (k : value -> M A) (handler : value -> M A) :
  (forall v, quiet (k v)) -> (forall e, quiet (handler e)) ->
  remote_calls (try_catch (bind (call notion c) k) handler) = [c].
Proof.
  intros Hk Hhandler.
  rewrite remote_calls_try_catch, remote_calls_bind, result_bind.
  unfold call. cbn [result snd].
  destruct (respond notion c) as [v | e].
  - rewrite (Hk v). destruct (result (k v)); [reflexivity | ].
    rewrite (Hhandler e). reflexivity.
  - rewrite (Hhandler e). reflexivity.
Qed.

(** ** The URL pattern *)

Lemma last_segment_split (s seg : string) :
  Text.last_segment s = Some seg ->
  exists before, s = before ++ String "/" seg /\ no_slash seg.
Proof.
  induction s as [| c r IH]; cbn; [discriminate |].
  destruct (Text.last_segment r) as [seg' |] eqn:Hr.
  - intros Hseg. injection Hseg as <-.
    destruct (IH eq_refl) as (before & -> & Hfree).
    exists (String c before). split; [reflexivity | exact Hfree].
  - destruct (Ascii.eqb_spec c "/") as [-> | _]; [| discriminate].
    intros Hseg. injection Hseg as <-.
    exists EmptyString. split; [reflexivity | exact Hr].
Qed.

Lemma last_segment_app (prefix seg : string) :
  Text.last_segment seg = None ->
  Text.last_segment (prefix ++ String "/" seg) = Some seg.
Proof.
  intros Hseg. induction prefix as [| c prefix IH]; cbn.
  - rewrite Hseg. reflexivity.
  - rewrite IH. reflexivity.
Qed.

Lemma greedy_group_split (seg group : string) :
  Text.greedy_group seg = Some group ->
  exists remainder,
    seg = group ++ String "-" remainder /\ remainder <> EmptyString.
Proof.
  revert group. induction seg as [| c r IH]; cbn; intros group; [discriminate |].
  destruct (Text.greedy_group r) as [a |] eqn:Hr.
  - intros Hg. injection Hg as <-.
    destruct (IH a eq_refl) as (remainder & -> & Hne).
    exists remainder. split; [reflexivity | exact Hne].
  - destruct (Ascii.eqb_spec c "-") as [-> | _]; [| discriminate].
    destruct (String.eqb_spec r EmptyString) as [-> | Hne]; [discriminate |].
    cbn. intros Hg. injection Hg as <-.
    exists r. split; [reflexivity | exact Hne].
Qed.

(** The group is the longest one: no other split of the segment at a dash
    with text behind it has a longer left part. *)
Lemma greedy_group_longest (left remainder : string) :
  remainder <> EmptyString ->
  exists group,
    Text.greedy_group (left ++ String "-" remainder) = Some group
    /\ String.length left <= String.length group.
Proof.
  intros Hne. induction left as [| c left IH]; cbn.
  - destruct (Text.greedy_group remainder) as [a |].
    + eexists. split; [reflexivity | cbn; lia].
    + destruct (String.eqb_spec remainder EmptyString); [contradiction |].
      cbn. eexists. split; [reflexivity | cbn; lia].
  - destruct IH as (group & -> & Hlen).
    eexists. split; [reflexivity | cbn; lia].
Qed.

(** The embedding of the pattern is sound: what [Text.match_slug] returns is
    the first group of a match at the end of the text. *)
Lemma match_slug_sound (url group : string) :
  Text.match_slug url = Some group -> slug_match url group.
Proof.
  unfold Text.match_slug.
  destruct (Text.last_segment url) as [seg |] eqn:Hseg; [| discriminate].
  destruct (Text.greedy_group seg) as [g |] eqn:Hg; [| discriminate].
  destruct (last_segment_split url Hseg) as (before & -> & Hfree).
  destruct (greedy_group_split seg Hg) as (remainder & -> & Hne).
  destruct g as [| c g]; [discriminate |].
  intros Hgroup. injection Hgroup as <-.
  exists before, remainder. repeat split; [discriminate | assumption ..].
Qed.

(** And complete: whenever the text matches, [Text.match_slug] finds a group,
    at least as long as the one of the given match. *)
Lemma match_slug_complete (url group : string) :
  slug_match url group ->
  exists found,
    Text.match_slug url = Some found
    /\ String.length group <= String.length found.
Proof.
  intros (before & remainder & -> & Hgroup & Hremainder & Hfree).
  unfold Text.match_slug. rewrite (last_segment_app before _ Hfree).
  destruct (greedy_group_longest group Hremainder) as (found & -> & Hlen).
  destruct found as [| c found].
  - destruct group; [contradiction | cbn in Hlen; lia].
  - eexists. split; [reflexivity | exact Hlen].
Qed.
(** ** The error normalizer *)

(** Once the diagnostic serialisation has gone through, [formatError] writes
    one line to the diagnostic channel; it returns unless a conversion to
    text throws. *)
Lemma formatError_run (h : store) (error : value) (json : option string) :
  Json.stringify h error = Normal json ->
  Js.nullish error = false ->
  exists r,
    formatError h error
    = ([Logged [VStr "Full error:"; Json.to_value json]], r).
Proof.
  intros Hjson Hnull. unfold formatError, Js.get.
  rewrite Hjson, Hnull. cbn [lift log bind app].
  split_ifs; cbn [ret];
    repeat match goal with
           | |- context [Js.to_string ?h ?v] => destruct (Js.to_string h v)
           end;
    cbn; eauto.
Qed.

Lemma optional_string_text (h : store) (v : value) :
  optional_string v -> Js.to_string h v = Normal (shown_text v).
Proof.
  intros [-> | [s ->]]; reflexivity.
Qed.

Lemma optional_string_truthy (v : value) :
  optional_string v -> Js.truthy v = true -> v = VStr (shown_text v).
Proof.
  intros [-> | [s ->]]; [discriminate | reflexivity].
Qed.

(** C4, as amended.  For a failure object whose diagnostic serialisation
    succeeds and whose [body.message], [message] and [code] are strings
    where present, [formatError] returns a string, and classifies in this
    order: status 404 gives the not-found message, else status 401 the
    authentication message, else status 400 the bad-request message, else a
    non-empty code the "API Error (<code>)" message, each followed by the
    detail; otherwise the detail itself, or the fixed fallback when there is
    none.  The detail is the nested [body.message] when it is present and
    not empty, else [message]. *)
Theorem formatError_priority (h : store) (error : value)
        (json : option string) :
  Json.stringify h error = Normal json ->
  Js.nullish error = false ->
  let status := Js.own h error "status" in
  let code := Js.own h error "code" in
  let nested := Js.get_opt h (Js.own h error "body") "message" in
  let message := Js.own h error "message" in
  optional_string nested -> optional_string message -> optional_string code ->
  let shown := shown_text (if Js.truthy nested then nested else message) in
  exists text,
    result (formatError h error) = Normal (VStr text)
    /\ (Js.is_num 404 status = true ->
        text = "Resource not found. Please check the provided ID. Details: "
               ++ shown)
    /\ (Js.is_num 404 status = false -> Js.is_num 401 status = true ->
        text = "Authentication error. Please check your API token. Details: "
               ++ shown)
    /\ (Js.is_num 404 status = false -> Js.is_num 401 status = false ->
        Js.is_num 400 status = true ->
        text = "Bad request. Details: " ++ shown)
    /\ (Js.is_num 404 status = false -> Js.is_num 401 status = false ->
        Js.is_num 400 status = false -> Js.truthy code = true ->
        text = "API Error (" ++ shown_text code ++ "): " ++ shown)
    /\ (Js.is_num 404 status = false -> Js.is_num 401 status = false ->
        Js.is_num 400 status = false -> Js.truthy code = false ->
        text = if Js.truthy nested || Js.truthy message then shown
               else "An unknown error occurred").
Proof.
  intros Hjson Hnull status code nested message Hnested Hmessage Hcode shown.
  assert (Hdetail : detail h error
                    = if Js.truthy nested then nested else message)
    by reflexivity.
  assert (Hshown : Js.to_string h (detail h error) = Normal shown).
  { rewrite Hdetail. apply optional_string_text.
    destruct (Js.truthy nested); assumption. }
  unfold formatError.
  rewrite result_bind. cbn [lift result snd]. rewrite Hjson.
  rewrite result_bind. cbn [log result snd].
  rewrite result_bind. unfold Js.get. rewrite Hnull. cbn [lift result snd].
  fold status code.
  destruct (Js.is_num 404 status) eqn:H404;
    [| destruct (Js.is_num 401 status) eqn:H401;
       [| destruct (Js.is_num 400 status) eqn:H400;
          [| destruct (Js.truthy code) eqn:Htruthy ] ] ].
  1-3: rewrite result_bind; cbn [lift result snd]; rewrite Hshown;
    eexists; (split; [reflexivity |]);
    repeat split; intros; try discriminate; reflexivity.
  - rewrite result_bind. cbn [lift result snd].
    rewrite (optional_string_text h Hcode).
    rewrite result_bind. cbn [lift result snd]. rewrite Hshown.
    eexists. split; [reflexivity |].
    repeat split; intros; try discriminate; reflexivity.
  - cbn [ret result snd]. rewrite Hdetail. unfold Js.or_else.
    subst shown. clearbody status code nested message.
    destruct (Js.truthy nested) eqn:Hn; cbn [orb].
    + rewrite Hn. destruct Hnested as [-> | [s ->]]; [discriminate Hn |].
      cbn [shown_text]. eexists. split; [reflexivity |].
      repeat split; intros; try discriminate; reflexivity.
    + destruct (Js.truthy message) eqn:Hm.
      * destruct Hmessage as [-> | [s ->]]; [discriminate Hm |].
        cbn [shown_text]. eexists. split; [reflexivity |].
        repeat split; intros; try discriminate; reflexivity.
      * eexists. split; [reflexivity |].
        repeat split; intros; try discriminate; reflexivity.
Qed.

Lemma formatError_priority_witness :
  result (formatError [] nested_failure)
  = Normal (VStr ("Resource not found. Please check the provided ID. "
                  ++ "Details: Could not find database."))
  /\ result (formatError [] unauthorized)
     = Normal (VStr ("Authentication error. Please check your API token. "
                     ++ "Details: API token is invalid.")).
Proof.
  split.
  - destruct (@formatError_priority [] nested_failure
                (match Json.stringify [] nested_failure with
                 | Normal j => j
                 | Throw _ => None
                 end) eq_refl eq_refl)
      as (text & Hv & H404 & _).
    + right. eexists. reflexivity.
    + right. eexists. reflexivity.
    + left. reflexivity.
    + rewrite Hv, (H404 eq_refl). reflexivity.
  - destruct (@formatError_priority [] unauthorized
                (match Json.stringify [] unauthorized with
                 | Normal j => j
                 | Throw _ => None
                 end) eq_refl eq_refl)
      as (text & Hv & _ & H401 & _).
    + left. reflexivity.
    + right. eexists. reflexivity.
    + right. eexists. reflexivity.
    + rewrite Hv, (H401 eq_refl eq_refl). reflexivity.
Defined.

(** C4, as stated, fails in its last case: without status and code the
    nested detail comes before the object's own message. *)
Lemma formatError_not_as_stated :
  let failure :=
    VObj [("body", VObj [("message", VStr "Rate limited upstream.")]);
          ("message", VStr "Request failed.")] in
  Js.own [] failure "status" = VUndefined
  /\ Js.own [] failure "code" = VUndefined
  /\ Js.own [] failure "message" = VStr "Request failed."
  /\ result (formatError [] failure) = Normal (VStr "Rate limited upstream.")
  /\ result (formatError [] failure) <> Normal (Js.own [] failure "message").
Proof.
  cbv zeta. repeat split. intros H. discriminate H.
Qed.

(** ** Logging inside the error normalizer *)

(** C9, at the failing input.  The diagnostic line is built with
    [JSON.stringify] before anything else: when the serialisation throws, as
    it does on a failure object that refers to itself, [formatError] throws
    the same exception and returns nothing, and the handler that was
    absorbing the failure fails with it. *)
Theorem formatError_fails_with_logging (h : store) (notion : collaborator)
        (error e : value) :
  Json.stringify h error = Throw e ->
  formatError h error = ([], Throw e)
  /\ (forall args,
         Js.nullish args = false ->
         respond notion (databases_retrieve (Js.own h args "databaseId"))
         = Throw error ->
         result (retrieve_database h notion args) = Throw e).
Proof.
  intros Hjson.
  assert (Hformat : formatError h error = ([], Throw e)).
  { unfold formatError. rewrite Hjson. reflexivity. }
  split; [exact Hformat |].
  intros args Hargs Hremote. unfold retrieve_database, destructure.
  rewrite Hargs. unfold lift at 1.
  rewrite result_bind. cbn [result snd].
  rewrite result_try_catch, result_bind. unfold call. cbn [result snd].
  rewrite Hremote.
  rewrite result_bind. cbn [log result snd].
  rewrite result_bind, Hformat. reflexivity.
Qed.

Lemma formatError_fails_with_logging_witness :
  formatError hang_up_store (VRef 0) = ([], Throw Json.CircularError).
Proof.
  apply (formatError_fails_with_logging hang_up_store (rejecting (VRef 0))
           (VRef 0) (e := Json.CircularError)).
  reflexivity.
Defined.

(** ** The gateway: absorbing failures, validating arguments *)

(** The three handlers that wrap their remote calls in [try]/[catch] turn a
    rejection into an envelope, provided [formatError] itself returns. *)
Lemma read_page_absorbs (h : store) (notion : collaborator) (args : value)
      (pageId : string) (e message : value) (t : list event) :
  readPage_parse h args = Normal pageId ->
  result (list_and_retrieve notion pageId) = Throw e ->
  formatError h e = (t, Normal message) ->
  result (read_page h notion args) = Normal (text_envelope message).
Proof.
  intros Hparse Hremote Hformat. unfold read_page.
  rewrite Hparse. unfold lift at 1.
  rewrite result_bind. cbn [result snd].
  rewrite result_try_catch, result_bind, Hremote.
  rewrite result_bind. cbn [log result snd].
  rewrite result_bind, Hformat. reflexivity.
Qed.

Lemma retrieve_database_absorbs (h : store) (notion : collaborator)
      (args e message : value) (t : list event) :
  Js.nullish args = false ->
  respond notion (databases_retrieve (Js.own h args "databaseId")) = Throw e ->
  formatError h e = (t, Normal message) ->
  result (retrieve_database h notion args) = Normal (text_envelope message).
Proof.
  intros Hargs Hremote Hformat. unfold retrieve_database, destructure.
  rewrite Hargs. unfold lift at 1.
  rewrite result_bind. cbn [result snd].
  rewrite result_try_catch, result_bind. unfold call. cbn [result snd].
  rewrite Hremote.
  rewrite result_bind. cbn [log result snd].
  rewrite result_bind, Hformat. reflexivity.
Qed.

Lemma query_database_absorbs (h : store) (notion : collaborator)
      (args e message : value) (t : list event) (shown : string) :
  Js.nullish args = false ->
  respond notion
    (databases_query (Js.own h args "databaseId") (Js.own h args "filter")
       (if Js.truthy (Js.own h args "sort")
        then VArr [Js.own h args "sort"] else VUndefined)) = Throw e ->
  formatError h e = (t, Normal message) ->
  Js.to_string h message = Normal shown ->
  result (query_database h notion args)
  = Normal (text_envelope (VStr ("Error querying database: " ++ shown))).
Proof.
  intros Hargs Hremote Hformat Hshown. unfold query_database, destructure.
  rewrite Hargs. unfold lift at 1.
  rewrite result_bind. cbn [result snd].
  rewrite result_try_catch, result_bind. unfold call. cbn [result snd].
  rewrite Hremote.
  rewrite result_bind. cbn [log result snd].
  rewrite result_bind, Hformat. cbn [result snd].
  rewrite result_bind. cbn [lift result snd]. rewrite Hshown. reflexivity.
Qed.

(** C1, at the failing input.  [search_pages] has no [try]/[catch]: whatever
    the remote search rejects with leaves the handler, and the dispatcher
    rethrows it, so the transport sees a failed request where the claim
    promises an envelope. *)
Theorem search_pages_failure_escapes (h : store) (notion : collaborator)
        (args : value) (query : string) (e : value) :
  searchPages_parse h args = Normal query ->
  respond notion (search (VStr query)) = Throw e ->
  result (search_pages h notion args) = Throw e
  /\ result (call_tool h notion "search_pages" args) = Throw e.
Proof.
  intros Hparse Hremote.
  assert (Hhandler : result (search_pages h notion args) = Throw e).
  { unfold search_pages. rewrite Hparse. unfold lift at 1.
    rewrite result_bind. cbn [result snd].
    rewrite result_bind. cbn [log result snd].
    rewrite result_bind. unfold call. cbn [result snd].
    rewrite Hremote. reflexivity. }
  split; [exact Hhandler |].
  unfold call_tool. cbn [toolHandlers String.eqb Ascii.eqb Bool.eqb].
  rewrite result_try_catch, result_bind, Hhandler.
  rewrite result_bind. reflexivity.
Qed.

Lemma search_pages_failure_escapes_witness :
  result (call_tool [] (rejecting unauthorized) "search_pages"
                    (VObj [("query", VStr "roadmap")]))
  = Throw unauthorized.
Proof.
  apply (search_pages_failure_escapes [] (rejecting unauthorized)
           (VObj [("query", VStr "roadmap")]) (query := "roadmap")
           (e := unauthorized));
    reflexivity.
Defined.

(** The handlers that validate do so before anything else: a failed
    validation is the whole computation. *)
Lemma search_pages_validates (h : store) (notion : collaborator)
      (args e : value) :
  searchPages_parse h args = Throw e ->
  search_pages h notion args = ([], Throw e).
Proof.
  intros Hparse. unfold search_pages. rewrite Hparse. reflexivity.
Qed.

Lemma read_page_validates (h : store) (notion : collaborator) (args e : value) :
  readPage_parse h args = Throw e ->
  read_page h notion args = ([], Throw e).
Proof.
  intros Hparse. unfold read_page. rewrite Hparse. reflexivity.
Qed.

Lemma missing_field_rejected (h : store) (field : string) (args : value) :
  Js.own h args field = VUndefined ->
  exists e, parse_string_field h field args = Throw e.
Proof.
  intros Hmissing. unfold parse_string_field.
  destruct (Zod.is_object args); [rewrite Hmissing |]; eauto.
Qed.

(** C2, at the failing input.  [query_database] and [retrieve_database] cast
    their arguments instead of validating them: an argument object without
    [databaseId] reaches the collaborator, once, with an undefined
    identifier. *)
Theorem database_tools_call_without_id (h : store) (notion : collaborator)
        (args : value) :
  Js.nullish args = false ->
  Js.own h args "databaseId" = VUndefined ->
  remote_calls (retrieve_database h notion args)
  = [databases_retrieve VUndefined]
  /\ remote_calls (query_database h notion args)
     = [databases_query VUndefined (Js.own h args "filter")
          (if Js.truthy (Js.own h args "sort")
           then VArr [Js.own h args "sort"] else VUndefined)].
Proof.
  intros Hargs Hmissing. split.
  - unfold retrieve_database, destructure. rewrite Hargs.
    unfold lift at 1. rewrite remote_calls_bind. cbn [result snd].
    cbv zeta. rewrite Hmissing.
    apply one_call; auto with quiet.
  - unfold query_database, destructure. rewrite Hargs.
    unfold lift at 1. rewrite remote_calls_bind. cbn [result snd].
    cbv zeta. rewrite Hmissing.
    apply one_call; auto with quiet.
Qed.

Lemma database_tools_call_without_id_witness :
  remote_calls (retrieve_database [] (rejecting page_not_found) (VObj []))
  = [databases_retrieve VUndefined]
  /\ remote_calls (query_database [] (rejecting page_not_found) (VObj []))
     = [databases_query VUndefined VUndefined VUndefined].
Proof.
  apply (database_tools_call_without_id [] (rejecting page_not_found) (VObj []));
    reflexivity.
Defined.

(** ** The renderer *)

(** C3.  The end-to-end scenario of [read_page]: title "Notes", a paragraph
    "Hello" and an unchecked checklist item "Buy milk" render as the heading,
    a blank line and the two content lines; the dispatcher hands the same
    envelope on. *)
Theorem read_page_notes (h : store) (notion : collaborator) (pageId : string) :
  respond notion (blocks_children_list (VStr pageId)) = Normal notes_blocks ->
  respond notion (pages_retrieve (VStr pageId)) = Normal notes_page ->
  let rendered :=
    "# Notes" ++ Text.nl ++ Text.nl ++ "Hello" ++ Text.nl ++ "[ ] Buy milk" in
  render h notes_blocks notes_page = Normal rendered
  /\ result (read_page h notion (VObj [("pageId", VStr pageId)]))
     = Normal (text_envelope (VStr rendered))
  /\ result (call_tool h notion "read_page" (VObj [("pageId", VStr pageId)]))
     = Normal (Envelope (text_envelope (VStr rendered))).
Proof.
  intros Hblocks Hpage rendered.
  assert (Hparse : readPage_parse h (VObj [("pageId", VStr pageId)])
                   = Normal pageId) by reflexivity.
  assert (Hrender : render h notes_blocks notes_page = Normal rendered)
    by reflexivity.
  assert (Hhandler : result (read_page h notion (VObj [("pageId", VStr pageId)]))
                     = Normal (text_envelope (VStr rendered))).
  { unfold read_page. rewrite Hparse. unfold lift at 1.
    rewrite result_bind. cbn [result snd].
    rewrite result_try_catch, result_bind.
    unfold list_and_retrieve. rewrite Hblocks, Hpage. cbn [result snd fst].
    rewrite result_bind. cbn [lift result snd]. rewrite Hrender.
    reflexivity. }
  split; [exact Hrender |]. split; [exact Hhandler |].
  unfold call_tool. cbn [toolHandlers String.eqb Ascii.eqb Bool.eqb].
  rewrite result_try_catch, result_bind, Hhandler. reflexivity.
Qed.

Lemma read_page_notes_witness :
  result (read_page [] notes_remote (VObj [("pageId", VStr "59833787")]))
  = Normal (text_envelope
              (VStr ("# Notes" ++ Text.nl ++ Text.nl ++ "Hello" ++ Text.nl
                     ++ "[ ] Buy milk"))).
Proof.
  apply (read_page_notes [] notes_remote "59833787"); reflexivity.
Defined.

(** ** The search summarizer *)

(** C5, as stated, fails on the property stage: the handler looks the
    property up by the names "title" and "Name", so a title-typed property
    under another name is not found. *)
Lemma page_title_misses_renamed_title :
  result (page_title [] renamed_title_page) = Normal (VStr "Untitled")
  /\ stated_title [] renamed_title_page = VStr "Plan"
  /\ result (page_title [] renamed_title_page)
     <> Normal (stated_title [] renamed_title_page).
Proof.
  split; [reflexivity |]. split; [reflexivity |].
  cbv. intros H. discriminate H.
Qed.

(** C5, as amended.  For a page whose URL is a string with a decodable slug
    (if any), the title is: the slug decoded from the last path segment of the
    URL, unless that is missing or reads "Untitled"; in that case the first
    text run of the property named "title", or of the one named "Name" when
    the property "title" is missing or otherwise falsy, if that run is
    truthy; otherwise "Untitled".  The result line is made of the text of
    that title and of the URL, and a URL ending in /Q3-Roadmap-abc123 gives
    the title "Q3 Roadmap". *)
Theorem page_title_fallback (h : store) (page : value) (url : string) :
  Js.own h page "url" = VStr url ->
  (forall group,
      Text.match_slug url = Some group ->
      Text.decodeURIComponent (Text.replace_dashes " " group) <> None) ->
  let slug :=
    match Text.match_slug url with
    | Some group => Text.decodeURIComponent (Text.replace_dashes " " group)
    | None => None
    end in
  let properties := Js.own h page "properties" in
  let titleProperty :=
    if Js.truthy (Js.own h properties "title")
    then Js.own h properties "title" else Js.own h properties "Name" in
  let run :=
    Js.get_opt h (Js.get_opt h (Js.get_opt h titleProperty "title") "0")
               "plain_text" in
  exists title,
    page_title h page = ([], Normal title)
    /\ (forall shown,
           Js.to_string h title = Normal shown ->
           result (format_page h page) = Normal (result_line shown url))
    /\ (forall t, slug = Some t -> t <> "Untitled" -> title = VStr t)
    /\ (slug = None \/ slug = Some "Untitled" ->
        Js.truthy properties = true -> Js.truthy run = true -> title = run)
    /\ (slug = None \/ slug = Some "Untitled" ->
        Js.truthy properties = false \/ Js.truthy run = false ->
        title = VStr "Untitled")
    /\ (forall prefix,
           url = prefix ++ "/Q3-Roadmap-abc123" -> title = VStr "Q3 Roadmap").
Proof.
  intros Hurl Hdecode slug properties titleProperty run.
  assert (Hpage : Js.nullish page = false).
  { destruct page; try reflexivity; discriminate Hurl. }
  assert (Hget : Js.get h page "url" = Normal (VStr url)).
  { unfold Js.get. rewrite Hpage, Hurl. reflexivity. }
  assert (Hrun : property_title h properties = run) by reflexivity.
  assert (Hex : exists title,
             extract_title h page = Normal title
             /\ (forall t, slug = Some t -> t <> "Untitled" -> title = VStr t)
             /\ (slug = None \/ slug = Some "Untitled" ->
                 Js.truthy properties = true -> Js.truthy run = true ->
                 title = run)
             /\ (slug = None \/ slug = Some "Untitled" ->
                 Js.truthy properties = false \/ Js.truthy run = false ->
                 title = VStr "Untitled")).
  { unfold extract_title. rewrite Hget. cbn [url_match].
    fold properties. rewrite Hrun. unfold slug_title. subst slug.
    destruct (Text.match_slug url) as [group |] eqn:Hmatch.
    - specialize (Hdecode group eq_refl).
      destruct (Text.decodeURIComponent (Text.replace_dashes " " group))
        as [t |] eqn:Ht; [| contradiction].
      cbn [Js.is_str].
      destruct (String.eqb_spec t "Untitled") as [-> | Hne]; cbn [andb].
      + destruct (Js.truthy properties) eqn:Hp; cbn [andb];
          [destruct (Js.truthy run) eqn:Hr |];
          eexists; (split; [reflexivity |]); repeat split; intros;
          repeat match goal with
                 | H : _ \/ _ |- _ => destruct H
                 | H : Some _ = Some _ |- _ => injection H as <-
                 end;
          congruence.
      + destruct (Js.truthy properties) eqn:Hp; cbn [andb];
          eexists; (split; [reflexivity |]); repeat split; intros;
          repeat match goal with
                 | H : _ \/ _ |- _ => destruct H
                 | H : Some _ = Some _ |- _ => injection H as <-
                 end;
          congruence.
    - cbn [Js.is_str String.eqb Ascii.eqb Bool.eqb andb].
      destruct (Js.truthy properties) eqn:Hp; cbn [andb];
        [destruct (Js.truthy run) eqn:Hr |];
        eexists; (split; [reflexivity |]); repeat split; intros;
        repeat match goal with
               | H : _ \/ _ |- _ => destruct H
               end;
        congruence. }
  destruct Hex as (title & Hextract & Hslug & Hprop & Hnone).
  exists title.
  assert (Htitle : page_title h page = ([], Normal title)).
  { unfold page_title. rewrite Hextract. reflexivity. }
  split; [exact Htitle |].
  split.
  { intros shown Hshown. unfold format_page. rewrite Htitle.
    cbn [bind app]. rewrite Hshown, Hget. reflexivity. }
  repeat split; try assumption.
  intros prefix ->. apply Hslug; [| discriminate].
  subst slug. unfold Text.match_slug.
  rewrite (last_segment_app prefix "Q3-Roadmap-abc123" eq_refl).
  reflexivity.
Qed.

Lemma page_title_fallback_witness :
  result (format_page [] roadmap_page)
  = Normal (bullet ++ " Q3 Roadmap" ++ Text.nl
            ++ "  Link: https://www.notion.so/Q3-Roadmap-abc123").
Proof.
  destruct (page_title_fallback [] roadmap_page
              (url := "https://www.notion.so/Q3-Roadmap-abc123") eq_refl)
    as (title & _ & Hline & _ & _ & _ & Hroadmap).
  - intros group Hgroup. vm_compute in Hgroup.
    injection Hgroup as <-. vm_compute. discriminate.
  - rewrite (Hroadmap "https://www.notion.so" eq_refl) in Hline.
    rewrite (Hline "Q3 Roadmap" eq_refl). reflexivity.
Defined.

(** *** Occurrences of a marker in a text *)

Lemma prefix_app_left (m q d : string) :
  prefix m (q ++ d) = true ->
  prefix m q = true
  \/ exists c, In c (list_ascii_of_string m) /\ In c (list_ascii_of_string d).
Proof.
  revert q. induction m as [| a m IH]; intros q H;
    [left; destruct q; reflexivity |].
  destruct q as [| b q].
  - destruct d as [| b d]; cbn in H; [discriminate H |].
    destruct (ascii_dec a b) as [-> | _]; [| discriminate H].
    right. exists b. cbn. auto.
  - cbn in H |- *.
    destruct (ascii_dec a b) as [-> | _]; [| discriminate H].
    destruct (IH q H) as [Hq | (c & Hm & Hd)]; [left; exact Hq |].
    right. exists c. cbn. auto.
Qed.

Lemma occurs_before (needle p s : string) :
  occurs needle s = true -> occurs needle (p ++ s) = true.
Proof.
  intros H. induction p as [| c p IH]; [exact H |].
  cbn. rewrite IH. apply orb_true_r.
Qed.

Lemma prefix_self_app (q s : string) : prefix q (q ++ s) = true.
Proof.
  induction q as [| c q IH]; [destruct s; reflexivity |].
  cbn. destruct (ascii_dec c c); [exact IH | contradiction].
Qed.

Lemma occurs_inside (p q s : string) : occurs q (p ++ q ++ s) = true.
Proof.
  apply occurs_before.
  destruct q as [| a q]; cbn; [destruct s; reflexivity |].
  destruct (ascii_dec a a); [| contradiction].
  rewrite prefix_self_app. reflexivity.
Qed.

Lemma occurs_skip (c0 : ascii) (m p s : string) :
  forallb (fun c => negb (Ascii.eqb c0 c)) (list_ascii_of_string p) = true ->
  occurs (String c0 m) (p ++ s) = occurs (String c0 m) s.
Proof.
  induction p as [| c p IH]; intros Hp; [reflexivity |].
  cbn in Hp. apply andb_true_iff in Hp. destruct Hp as [Hc Hp].
  cbn [append occurs prefix]. rewrite (IH Hp).
  destruct (ascii_dec c0 c) as [-> | _]; [| reflexivity].
  rewrite Ascii.eqb_refl in Hc. discriminate Hc.
Qed.

Lemma occurs_closing (c0 : ascii) (m q d : string) :
  forallb (fun c => forallb (fun c' => negb (Ascii.eqb c c'))
                            (list_ascii_of_string d))
          (list_ascii_of_string (String c0 m)) = true ->
  occurs (String c0 m) d = false ->
  occurs (String c0 m) q = false ->
  occurs (String c0 m) (q ++ d) = false.
Proof.
  intros Hfree Hd. induction q as [| b q IH]; intros Hq; [exact Hd |].
  cbn [occurs] in Hq. apply orb_false_iff in Hq. destruct Hq as [Hpre Hrest].
  change (String b q ++ d) with (String b (q ++ d)).
  cbn [occurs]. rewrite (IH Hrest), orb_false_r.
  destruct (prefix (String c0 m) (String b (q ++ d))) eqn:Hp; [| reflexivity].
  destruct (prefix_app_left (String c0 m) (String b q) d Hp)
    as [Hleft | (c & Hm & Hdc)]; [congruence |].
  exfalso. rewrite forallb_forall in Hfree. specialize (Hfree c Hm).
  rewrite forallb_forall in Hfree. specialize (Hfree c Hdc).
  rewrite Ascii.eqb_refl in Hfree. discriminate Hfree.
Qed.

(** C8.  With no matched page, [search_pages] returns, as an ordinary
    envelope, the single sentence "No pages found matching" followed by the
    quoted query: the query occurs in it, and neither the bullet marker of
    the result lines nor the bullet character occurs in it unless the query
    itself carries one. *)
Theorem search_pages_no_results (h : store) (notion : collaborator)
        (args : value) (query : string) (response : value) :
  searchPages_parse h args = Normal query ->
  respond notion (search (VStr query)) = Normal response ->
  Js.own h response "results" = VArr [] ->
  let sentence := "No pages found matching " ++ Text.dq ++ query ++ Text.dq in
  result (search_pages h notion args) = Normal (text_envelope (VStr sentence))
  /\ result (call_tool h notion "search_pages" args)
     = Normal (Envelope (text_envelope (VStr sentence)))
  /\ occurs query sentence = true
  /\ (forall marker,
         In marker [bullet; "•"] ->
         occurs marker query = false -> occurs marker sentence = false).
Proof.
  intros Hparse Hremote Hresults sentence.
  assert (Hresponse : Js.get h response "results" = Normal (VArr [])).
  { unfold Js.get. destruct response; try discriminate Hresults;
      cbn [Js.nullish]; rewrite Hresults; reflexivity. }
  assert (Hhandler : result (search_pages h notion args)
                     = Normal (text_envelope (VStr sentence))).
  { unfold search_pages. rewrite Hparse. unfold lift at 1.
    rewrite result_bind. cbn [result snd].
    rewrite result_bind. cbn [log result snd].
    rewrite result_bind. unfold call. cbn [result snd]. rewrite Hremote.
    rewrite result_bind, Hresponse. reflexivity. }
  split; [exact Hhandler |]. split.
  { unfold call_tool. cbn [toolHandlers String.eqb Ascii.eqb Bool.eqb].
    rewrite result_try_catch, result_bind, Hhandler. reflexivity. }
  split.
  { subst sentence.
    change ("No pages found matching " ++ Text.dq ++ query ++ Text.dq)
      with (("No pages found matching " ++ Text.dq) ++ query ++ Text.dq).
    apply occurs_inside. }
  intros marker Hmarker Hquery. subst sentence.
  change ("No pages found matching " ++ Text.dq ++ query ++ Text.dq)
    with (("No pages found matching " ++ Text.dq) ++ query ++ Text.dq).
  destruct Hmarker as [<- | [<- | []]].
  - unfold bullet in *. rewrite occurs_skip by reflexivity.
    apply occurs_closing; [reflexivity | reflexivity | exact Hquery].
  - rewrite occurs_skip by reflexivity.
    apply occurs_closing; [reflexivity | reflexivity | exact Hquery].
Qed.

Lemma search_pages_no_results_witness :
  result (search_pages [] (resolving (VObj [("results", VArr [])]))
                       (VObj [("query", VStr "roadmap")]))
  = Normal (text_envelope
              (VStr ("No pages found matching " ++ Text.dq ++ "roadmap"
                     ++ Text.dq))).
Proof.
  apply (search_pages_no_results [] (resolving (VObj [("results", VArr [])]))
           (VObj [("query", VStr "roadmap")]) (query := "roadmap")
           (response := VObj [("results", VArr [])]));
    reflexivity.
Defined.

(** ** The block loop of [read_page] *)

Lemma plain_texts_well_formed (h : store) (items : list value) :
  Forall (fun item => Js.nullish item = false) items ->
  plain_texts h items
  = Normal (map (fun item => Js.own h item "plain_text") items).
Proof.
  induction 1 as [| item rest Hitem _ IH]; [reflexivity |].
  cbn. unfold Js.get. rewrite Hitem, IH. reflexivity.
Qed.

(** The elements that convert are joined without an exception. *)
Lemma texts_converts (h : store) (items : list value) :
  Forall (fun v => Js.converts h v = true) items ->
  exists ts, Js.texts h items = Normal ts.
Proof.
  induction 1 as [| v rest Hv _ [ts IH]]; [exists []; reflexivity |].
  cbn [Js.texts]. unfold Js.converts in Hv.
  destruct (Js.nullish v).
  - rewrite IH. eauto.
  - destruct (Js.to_string h v) as [t | e]; [| discriminate Hv].
    rewrite IH. eauto.
Qed.

Lemma textContent_well_formed (h : store) (block type : value)
      (key : string) :
  Js.to_string h type = Normal key ->
  runs_well_formed h (text_runs h block key) ->
  exists t,
    textContent h block type = Normal t
    /\ (Js.nullish (text_runs h block key) = true -> t = EmptyString)
    /\ (forall items,
           text_runs h block key = VArr items ->
           Js.join h EmptyString
                   (map (fun item => Js.own h item "plain_text") items)
           = Normal t).
Proof.
  intros Hkey. unfold textContent. rewrite Hkey.
  fold (text_runs h block key).
  intros [Hnull | (items & Hruns & Hitems)].
  - rewrite Hnull. exists EmptyString. split; [reflexivity |].
    split; [reflexivity |].
    intros items Hruns. rewrite Hruns in Hnull. discriminate Hnull.
  - rewrite Hruns. cbn [Js.nullish].
    rewrite (@plain_texts_well_formed h items)
      by (eapply Forall_impl; [| exact Hitems]; intros item [Hitem _];
          exact Hitem).
    destruct (@texts_converts h
                (map (fun item => Js.own h item "plain_text") items))
      as [ts Hts].
    { apply Forall_map. eapply Forall_impl; [| exact Hitems].
      intros item [_ Hitem]. exact Hitem. }
    unfold Js.join. rewrite Hts.
    eexists. split; [reflexivity |]. split; [discriminate |].
    intros items' Heq. injection Heq as <-. rewrite Hts. reflexivity.
Qed.

Ltac names_of H :=
  cbn [recognized existsb] in H;
  repeat (apply orb_false_iff in H; destruct H as [? H]).

(** How an iteration of the loop ends for a block that is neither a child
    page nor a child database and whose text was extracted. *)
Lemma render_block_body (h : store) (st : rendering) (block type : value)
      (t : string) :
  Js.get h block "type" = Normal type ->
  Js.is_str "child_page" type = false ->
  Js.is_str "child_database" type = false ->
  textContent h block type = Normal t ->
  render_block h st block
  = Normal {| childPages := childPages st;
              childDatabases := childDatabases st;
              contentBlocks :=
                if formattedContent h block type t =? EmptyString
                then contentBlocks st
                else (contentBlocks st ++ [formattedContent h block type t])%list
           |}.
Proof.
  intros Htype Hpage Hdb Htext. unfold render_block.
  rewrite Htype, Hpage, Hdb, Htext. reflexivity.
Qed.

(** C6, as stated, fails on a payload whose text runs are not an array: the
    extraction calls [map] on them and throws. *)
Lemma unrecognized_block_can_throw :
  recognized (VStr "callout") = false
  /\ render_block [] nothing_rendered
       (block_of "callout" [("rich_text", VStr "Remember the milk")])
     = Throw (Js.TypeError "block[type]?.rich_text?.map is not a function").
Proof.
  split; reflexivity.
Qed.

(** C6, as amended.  For a block whose type is none of the recognized ones
    and converts to a property key, as every string does, and whose text
    runs are absent or an array without [undefined] or [null] entries whose
    [plain_text] converts to a text, the iteration does not throw: the
    extracted text is the concatenation of the runs' [plain_text] (empty
    when there are no runs), it is appended as a content line when it is
    non-empty, and nothing changes when it is empty. *)
Theorem unrecognized_block_rendered (h : store) (st : rendering)
        (block type : value) (key : string) :
  Js.get h block "type" = Normal type ->
  recognized type = false ->
  Js.to_string h type = Normal key ->
  runs_well_formed h (text_runs h block key) ->
  exists t st',
    textContent h block type = Normal t
    /\ (Js.nullish (text_runs h block key) = true -> t = EmptyString)
    /\ (forall items,
           text_runs h block key = VArr items ->
           Js.join h EmptyString
                   (map (fun item => Js.own h item "plain_text") items)
           = Normal t)
    /\ render_block h st block = Normal st'
    /\ childPages st' = childPages st
    /\ childDatabases st' = childDatabases st
    /\ (t <> EmptyString -> contentBlocks st' = (contentBlocks st ++ [t])%list)
    /\ (t = EmptyString -> contentBlocks st' = contentBlocks st).
Proof.
  intros Htype Hunknown Hkey Hruns.
  destruct (@textContent_well_formed h block type key Hkey Hruns)
    as (t & Htext & Hempty & Hjoin).
  names_of Hunknown.
  assert (Hformatted : formattedContent h block type t = t).
  { unfold formattedContent.
    repeat match goal with
           | H : Js.is_str _ type = false |- _ => rewrite H; clear H
           end.
    reflexivity. }
  exists t. eexists.
  split; [exact Htext |]. split; [exact Hempty |]. split; [exact Hjoin |].
  split; [apply render_block_body with (type := type) (t := t); assumption |].
  cbn [childPages childDatabases contentBlocks]. rewrite Hformatted.
  split; [reflexivity |]. split; [reflexivity |].
  destruct (String.eqb_spec t EmptyString) as [-> | Hne];
    split; intros; congruence.
Qed.

Lemma unrecognized_block_rendered_witness :
  render_block [] nothing_rendered
    (block_of "callout" [("rich_text", VArr [text_run "Remember the milk"])])
  = Normal {| childPages := []; childDatabases := [];
              contentBlocks := ["Remember the milk"] |}.
Proof.
  destruct (@unrecognized_block_rendered [] nothing_rendered
              (block_of "callout"
                        [("rich_text", VArr [text_run "Remember the milk"])])
              (VStr "callout") "callout" eq_refl eq_refl eq_refl)
    as (t & st' & Htext & _ & _ & Hrender & Hpages & Hdbs & Hline & _).
  - right. eexists. split; [reflexivity |]. repeat constructor.
  - rewrite Hrender. injection Htext as <-.
    destruct st' as [pages dbs lines]. cbn in Hpages, Hdbs, Hline.
    rewrite Hpages, Hdbs, Hline; [reflexivity | discriminate].
Defined.

(** C10, as stated, fails for list items: a bulleted list item without text
    is a recognized block whose extracted text is empty, and it is not
    dropped; its bullet marker becomes a content line. *)
Lemma empty_list_item_kept :
  recognized (VStr "bulleted_list_item") = true
  /\ textContent [] (block_of "bulleted_list_item" [("rich_text", VArr [])])
                 (VStr "bulleted_list_item")
     = Normal EmptyString
  /\ render_block [] nothing_rendered
       (block_of "bulleted_list_item" [("rich_text", VArr [])])
     = Normal {| childPages := []; childDatabases := [];
                 contentBlocks := [bullet ++ " "] |}.
Proof.
  repeat split.
Qed.

Ltac each_case :=
  cbn; repeat split; intros; try reflexivity;
  repeat match goal with
         | H : _ \/ _ |- _ => destruct H
         end;
  try discriminate;
  try (destruct (Js.truthy _); reflexivity).

(** C10, as amended.  A block that is neither a child page nor a child
    database adds a content line exactly when its formatted string is not
    empty.  With an empty extracted text, a paragraph, a heading or a block of
    unrecognized type is dropped, while a bulleted or numbered list item
    still adds its bullet marker, a checklist item its "[x] " or "[ ] "
    marker, and a code block its fence markers. *)
Theorem body_line_iff_formatted (h : store) (st : rendering)
        (block type : value) (t : string) :
  Js.get h block "type" = Normal type ->
  Js.is_str "child_page" type = false ->
  Js.is_str "child_database" type = false ->
  textContent h block type = Normal t ->
  let formatted := formattedContent h block type t in
  exists st',
    render_block h st block = Normal st'
    /\ childPages st' = childPages st
    /\ childDatabases st' = childDatabases st
    /\ (formatted <> EmptyString ->
        contentBlocks st' = (contentBlocks st ++ [formatted])%list)
    /\ (formatted = EmptyString -> contentBlocks st' = contentBlocks st)
    /\ (t = EmptyString ->
        (Js.is_str "paragraph" type = true \/ Js.is_str "heading_1" type = true
         \/ Js.is_str "heading_2" type = true
         \/ Js.is_str "heading_3" type = true
         \/ recognized type = false ->
         formatted = EmptyString)
        /\ (Js.is_str "bulleted_list_item" type = true
            \/ Js.is_str "numbered_list_item" type = true ->
            formatted = bullet ++ " ")
        /\ (Js.is_str "to_do" type = true ->
            formatted
            = if Js.truthy (Js.get_opt h (Js.own h block "to_do") "checked")
              then "[x] " else "[ ] ")
        /\ (Js.is_str "code" type = true ->
            formatted = "```" ++ Text.nl ++ Text.nl ++ "```")).
Proof.
  intros Htype Hpage Hdb Htext formatted.
  eexists. split; [apply render_block_body with (type := type) (t := t);
                   assumption |].
  cbn [childPages childDatabases contentBlocks]. fold formatted.
  split; [reflexivity |]. split; [reflexivity |].
  split; [| split].
  - intros Hne. destruct (String.eqb_spec formatted EmptyString);
      [contradiction | reflexivity].
  - intros ->. reflexivity.
  - intros ->. subst formatted. unfold formattedContent.
    destruct type as [| | | | s | | | |]; try solve [each_case].
    cbn [Js.is_str recognized existsb].
    repeat match goal with
           | |- context [s =? ?name] =>
               destruct (String.eqb_spec s name) as [-> | ?];
               [solve [each_case] |]
           end.
    each_case.
Qed.

Lemma body_line_iff_formatted_witness :
  render_block [] nothing_rendered
    (block_of "to_do" [("rich_text", VArr []); ("checked", VBool true)])
  = Normal {| childPages := []; childDatabases := [];
              contentBlocks := ["[x] "] |}.
Proof.
  destruct (body_line_iff_formatted [] nothing_rendered
              (block_of "to_do" [("rich_text", VArr []); ("checked", VBool true)])
              (type := VStr "to_do") (t := EmptyString)
              eq_refl eq_refl eq_refl eq_refl)
    as (st' & Hrender & Hpages & Hdbs & Hline & _).
  rewrite Hrender. destruct st' as [pages dbs lines].
  cbn in Hpages, Hdbs, Hline.
  rewrite Hpages, Hdbs, Hline; [reflexivity | discriminate].
Defined.

(** ** Failures that are absorbed *)

Lemma elements_normal (rec : string -> value -> Json.outcome)
      (items : list value) :
  Forall (fun v => forall ind, exists t, rec ind v = Some (Normal t)) items ->
  forall ind, exists ts, Json.elements rec ind items = Some (Normal ts).
Proof.
  induction 1 as [| v rest Hv _ IH]; intros ind; cbn; [eauto |].
  destruct (Hv ind) as [t ->]. destruct (IH ind) as [ts ->]. eauto.
Qed.

Lemma members_normal (rec : string -> value -> Json.outcome)
      (props : list (string * value)) :
  Forall (fun kv => forall ind, exists t, rec ind (snd kv) = Some (Normal t))
         props ->
  forall ind, exists ts, Json.members rec ind props = Some (Normal ts).
Proof.
  induction 1 as [| [k v] rest Hv _ IH]; intros ind; cbn; [eauto |].
  cbn in Hv. destruct (Hv ind) as [t ->]. destruct (IH ind) as [ts ->].
  destruct t; eauto.
Qed.

Lemma Forall_ref_free {A : Type} (P : A -> Prop) (f : A -> bool)
      (l : list A) :
  Forall (fun a => f a = true -> P a) l -> forallb f l = true -> Forall P l.
Proof.
  induction 1 as [| a rest Ha _ IH]; cbn; intros Hall; [constructor |].
  apply andb_true_iff in Hall. destruct Hall as [Hfa Hrest].
  constructor; auto.
Qed.

(** A value without references serialises in any store, with any fuel, and
    gives a text unless it is [undefined] itself. *)
Lemma ser_ref_free (h : store) (v : value) :
  ref_free v = true ->
  forall fuel stack ind,
  exists t,
    Json.ser h fuel stack ind v = Some (Normal t)
    /\ (v <> VUndefined -> exists s, t = Some s).
Proof.
  induction v as [| | b | n | s | items IH | props IH | name message props IH
                  | a] using value_nested_ind;
    intros Hfree fuel stack ind;
    try (destruct fuel; cbn; eexists;
         (split; [reflexivity
                 | intros Hne; try (elim Hne; reflexivity); eauto]);
         fail).
  - cbn [ref_free] in Hfree.
    assert (Hitems : Forall (fun v => forall ind, exists t,
                                 Json.ser h fuel stack ind v = Some (Normal t))
                            items).
    { apply Forall_ref_free with (f := ref_free); [| exact Hfree].
      eapply Forall_impl; [| exact IH]. cbn. intros v Hv Hv' ind'.
      destruct (Hv Hv' fuel stack ind') as (t & -> & _). eauto. }
    destruct fuel; cbn;
      match goal with
      | |- context [Json.elements ?r ?i ?l] =>
          destruct (@elements_normal r l Hitems i) as [ts Hts]; rewrite Hts
      end;
      cbn; eexists; (split; [reflexivity | eauto]).
  - cbn [ref_free] in Hfree.
    assert (Hprops : Forall (fun kv => forall ind, exists t,
                                 Json.ser h fuel stack ind (snd kv)
                                 = Some (Normal t)) props).
    { apply Forall_ref_free with (f := fun kv => ref_free (snd kv));
        [| exact Hfree].
      eapply Forall_impl; [| exact IH]. cbn. intros kv Hv Hv' ind'.
      destruct (Hv Hv' fuel stack ind') as (t & -> & _). eauto. }
    destruct fuel; cbn;
      match goal with
      | |- context [Json.members ?r ?i ?l] =>
          destruct (@members_normal r l Hprops i) as [ts Hts]; rewrite Hts
      end;
      cbn; eexists; (split; [reflexivity | eauto]).
  - cbn [ref_free] in Hfree.
    assert (Hprops : Forall (fun kv => forall ind, exists t,
                                 Json.ser h fuel stack ind (snd kv)
                                 = Some (Normal t)) props).
    { apply Forall_ref_free with (f := fun kv => ref_free (snd kv));
        [| exact Hfree].
      eapply Forall_impl; [| exact IH]. cbn. intros kv Hv Hv' ind'.
      destruct (Hv Hv' fuel stack ind') as (t & -> & _). eauto. }
    destruct fuel; cbn;
      match goal with
      | |- context [Json.members ?r ?i ?l] =>
          destruct (@members_normal r l Hprops i) as [ts Hts]; rewrite Hts
      end;
      cbn; eexists; (split; [reflexivity | eauto]).
  - discriminate Hfree.
Qed.

Lemma stringify_ref_free (h : store) (v : value) :
  ref_free v = true ->
  exists t,
    Json.stringify h v = Normal t /\ (v <> VUndefined -> exists s, t = Some s).
Proof.
  intros Hfree. unfold Json.stringify.
  destruct (ser_ref_free h v Hfree (length h) [] EmptyString)
    as (t & -> & Ht).
  eauto.
Qed.

(** *** Conversions to text *)

Lemma texts_array (h : store) (items : list value) :
  (fix texts (l : list value) : completion (list string) :=
     match l with
     | [] => Normal []
     | x :: r =>
         match
           match x with
           | VUndefined | VNull => Normal EmptyString
           | _ => Js.to_string h x
           end
         with
         | Throw e => Throw e
         | Normal t =>
             match texts r with
             | Throw e => Throw e
             | Normal ts => Normal (t :: ts)
             end
         end
     end) items
  = Js.texts h items.
Proof.
  induction items as [| x r IH]; [reflexivity |].
  cbn [Js.texts]. rewrite IH. destruct x; reflexivity.
Qed.

(** An array converts as [join(",")] does. *)
Lemma to_string_array (h : store) (items : list value) :
  Js.to_string h (VArr items) = Js.join h "," items.
Proof.
  unfold Js.join. rewrite <- texts_array. reflexivity.
Qed.

Lemma object_text_throws (props : list (string * value)) (inherited : string)
      (e : value) :
  Js.object_text props inherited = Throw e -> e = Js.not_primitive.
Proof.
  unfold Js.object_text. destruct (Js.has_own "toString" props);
    intros H; inversion H. reflexivity.
Qed.

Lemma texts_throws (h : store) (items : list value) (e : value) :
  Forall (fun v => forall x, Js.to_string h v = Throw x -> x = Js.not_primitive)
         items ->
  Js.texts h items = Throw e -> e = Js.not_primitive.
Proof.
  induction 1 as [| v rest Hv _ IH]; cbn [Js.texts]; [discriminate |].
  destruct (Js.nullish v).
  - destruct (Js.texts h rest); [discriminate |].
    intros H. inversion H. subst. apply IH. reflexivity.
  - destruct (Js.to_string h v) as [t | x] eqn:Ht.
    + destruct (Js.texts h rest); [discriminate |].
      intros H. inversion H. subst. apply IH. reflexivity.
    + intros H. inversion H. subst. apply Hv. reflexivity.
Qed.

(** A conversion to text throws nothing but the [TypeError] of an object
    that has no primitive value. *)
Lemma to_string_throws (h : store) (v e : value) :
  Js.to_string h v = Throw e -> e = Js.not_primitive.
Proof.
  revert e.
  induction v as [| | b | n | s | items IH | props IH | name message props IH
                  | a] using value_nested_ind;
    intros e; try discriminate; try apply object_text_throws.
  rewrite to_string_array. unfold Js.join.
  destruct (Js.texts h items) as [ts | x] eqn:Hts; [discriminate |].
  intros H. inversion H. subst. eapply texts_throws; eassumption.
Qed.

Lemma to_string_native (h : store) (v e : value) :
  Js.to_string h v = Throw e -> native_error e.
Proof.
  intros H. apply to_string_throws in H. subst e. left. eexists. reflexivity.
Qed.

Lemma join_native (h : store) (sep : string) (items : list value)
      (e : value) :
  Js.join h sep items = Throw e -> native_error e.
Proof.
  unfold Js.join.
  destruct (Js.texts h items) as [ts | x] eqn:Hts; [discriminate |].
  intros H. inversion H. subst.
  assert (He : e = Js.not_primitive).
  { eapply texts_throws; [| exact Hts].
    apply Forall_forall. intros v _ y. apply to_string_throws. }
  rewrite He. left. eexists. reflexivity.
Qed.

Lemma converts_text (h : store) (v : value) :
  Js.converts h v = true -> exists s, Js.to_string h v = Normal s.
Proof.
  unfold Js.converts. destruct (Js.to_string h v); [eauto | discriminate].
Qed.

(** Every failure that serialises, is neither [undefined] nor [null] and
    whose detail and code convert to text is formatted, to a value that
    converts to text. *)
Lemma formatError_converts (h : store) (e : value) :
  ref_free e = true -> Js.nullish e = false ->
  Js.converts h (detail h e) = true ->
  Js.converts h (Js.own h e "code") = true ->
  exists t message,
    formatError h e = (t, Normal message)
    /\ Js.converts h message = true.
Proof.
  intros Hfree Hnull Hdetail Hcode.
  destruct (stringify_ref_free h e Hfree) as (json & Hjson & _).
  destruct (converts_text _ _ Hdetail) as [shown Hshown].
  destruct (converts_text _ _ Hcode) as [code Hcode'].
  unfold formatError, Js.get. rewrite Hjson, Hnull. cbn [lift log bind app].
  split_ifs; try rewrite Hcode'; try rewrite Hshown; cbn [ret];
    try (do 2 eexists; split; reflexivity).
  do 2 eexists. split; [reflexivity |].
  unfold Js.or_else. destruct (Js.truthy (detail h e)); [exact Hdetail |].
  reflexivity.
Qed.

Lemma invalid_type_ref_free (expected : string) (v : value)
      (path : list string) :
  ref_free (Zod.invalid_type expected v path) = true.
Proof.
  cbn. rewrite andb_true_r.
  induction path as [| k path IH]; [reflexivity | exact IH].
Qed.

Lemma native_ref_free (e : value) :
  native_error e -> ref_free e = true /\ Js.nullish e = false.
Proof.
  intros [[message ->] | (issues & -> & Hissues)]; cbn; [auto |].
  rewrite Hissues. auto.
Qed.

(** The exceptions of the handlers' own making carry a string as their
    message and nothing as their nested detail or code. *)
Lemma native_typed (h : store) (e : value) :
  native_error e ->
  Js.get_opt h (Js.own h e "body") "message" = VUndefined
  /\ is_string (Js.own h e "message")
  /\ Js.own h e "code" = VUndefined
  /\ Js.own h e "status" = VUndefined.
Proof.
  intros [[message ->] | (issues & -> & _)]; cbn; repeat split;
    eexists; reflexivity.
Qed.

(** They are formatted to their message, or to the fallback when the
    message is empty. *)
Lemma formatError_native (h : store) (e : value) :
  native_error e -> exists t s, formatError h e = (t, Normal (VStr s)).
Proof.
  intros Hnative.
  destruct (native_ref_free Hnative) as [Hfree Hnull].
  destruct (stringify_ref_free h e Hfree) as (json & Hjson & _).
  destruct (native_typed h Hnative) as (Hbody & [m Hm] & Hcode & Hstatus).
  unfold formatError, Js.get. rewrite Hjson, Hnull. cbn [lift log bind app].
  rewrite Hstatus, Hcode. cbn [Js.is_num Js.truthy ret].
  unfold detail, Js.or_else. rewrite Hbody, Hm. cbn [Js.truthy].
  destruct (negb (m =? EmptyString)); eauto.
Qed.

(** [JSON.stringify] gives no text for [undefined] alone. *)
Lemma finish_text (o c ind : string) (r : option (completion (list string))) :
  Json.finish o c ind r <> Some (Normal None).
Proof.
  destruct r as [[ts | e] |]; cbn; intros H; discriminate H.
Qed.

Lemma ser_text (h : store) (fuel : nat) (stack : list nat) (ind : string)
      (v : value) :
  Json.ser h fuel stack ind v = Some (Normal None) -> v = VUndefined.
Proof.
  destruct fuel, v; cbn; intros H; try discriminate H; try reflexivity;
    try (apply finish_text in H; contradiction);
    destruct (existsb (Nat.eqb a) stack); try discriminate H;
    destruct (nth_error h a); try discriminate H;
    apply finish_text in H; contradiction.
Qed.

Lemma stringify_text (h : store) (v : value) (t : option string) :
  Json.stringify h v = Normal t -> v <> VUndefined -> is_string (Json.to_value t).
Proof.
  intros Hjson Hdefined. destruct t as [s |]; [eexists; reflexivity |].
  elim Hdefined. pose proof (stringify_ser h v) as Hser.
  rewrite Hjson in Hser. eapply ser_text, Hser.
Qed.

(** *** What the renderer itself can throw *)

Lemma get_native (h : store) (v : value) (k : string) (e : value) :
  Js.get h v k = Throw e -> native_error e.
Proof.
  unfold Js.get. destruct (Js.nullish v); intros H; inversion H.
  left. eauto.
Qed.

Lemma string_field_ref_free (h : store) (v : value) (k : string) :
  forallb ref_free (Zod.string_field h v k) = true.
Proof.
  unfold Zod.string_field.
  destruct (Js.own h v k); cbn [forallb];
    try rewrite invalid_type_ref_free; reflexivity.
Qed.

Lemma notionPage_parse_native (h : store) (pageResponse e : value) :
  notionPage_parse h pageResponse = Throw e -> native_error e.
Proof.
  unfold notionPage_parse.
  destruct (Zod.is_object pageResponse).
  - match goal with
    | |- context [match ?l with [] => _ | _ :: _ => _ end] =>
        assert (Hfree : forallb ref_free l = true);
        [| destruct l as [| issue issues]]
    end.
    + rewrite !forallb_app, !string_field_ref_free.
      destruct (Zod.is_object _); cbn [forallb];
        try rewrite invalid_type_ref_free; reflexivity.
    + discriminate.
    + intros H. inversion H. right. eauto.
  - intros H. inversion H. right. eexists. split; [reflexivity |].
    cbn [forallb]. rewrite invalid_type_ref_free. reflexivity.
Qed.

Lemma find_title_native (h : store) (props : list value) (e : value) :
  find_title h props = Throw e -> native_error e.
Proof.
  induction props as [| prop rest IH]; cbn; [discriminate |].
  destruct (Js.get h prop "type") as [t | x] eqn:Hget.
  - destruct (Js.is_str "title" t); [discriminate | exact IH].
  - intros H. inversion H. subst. eapply get_native, Hget.
Qed.

Lemma resolve_title_native (h : store) (titleProp e : value) :
  resolve_title h titleProp = Throw e -> native_error e.
Proof.
  unfold resolve_title.
  destruct (Js.is_str "title" _); [| discriminate].
  destruct (Js.get h _ "0") as [first | x] eqn:Hget; [discriminate |].
  intros H. inversion H. subst. eapply get_native, Hget.
Qed.

Lemma iterate_native (v : value) (e : value) :
  iterate v = Throw e -> native_error e.
Proof.
  destruct v; cbn; intros H; inversion H; left; eauto.
Qed.

Lemma strip_dashes_native (id : value) (e : value) :
  strip_dashes id = Throw e -> native_error e.
Proof.
  destruct id; cbn; intros H; inversion H; left; eauto.
Qed.

Lemma plain_texts_native (h : store) (items : list value) (e : value) :
  plain_texts h items = Throw e -> native_error e.
Proof.
  induction items as [| item rest IH]; cbn; [discriminate |].
  destruct (Js.get h item "plain_text") as [t | x] eqn:Hget.
  - destruct (plain_texts h rest); [discriminate |].
    intros H. inversion H. subst. apply IH. reflexivity.
  - intros H. inversion H. subst. eapply get_native, Hget.
Qed.

Lemma textContent_native (h : store) (block type e : value) :
  textContent h block type = Throw e -> native_error e.
Proof.
  unfold textContent.
  destruct (Js.to_string h type) as [key | x] eqn:Hkey;
    [| intros H; inversion H; subst; eapply to_string_native, Hkey].
  destruct (Js.nullish _); [discriminate |].
  destruct (Js.get_opt h _ "rich_text");
    try (intros H; inversion H; left; eauto; fail).
  destruct (plain_texts h items) as [ts | x] eqn:Htexts;
    [apply join_native |].
  intros H. inversion H. subst. eapply plain_texts_native, Htexts.
Qed.

Lemma child_entry_native (h : store) (block : value)
      (key marker fallback : string) (e : value) :
  child_entry h block key marker fallback = Throw e -> native_error e.
Proof.
  unfold child_entry.
  destruct (Js.get h _ "title") as [title | x] eqn:Hget.
  - destruct (Js.to_string h _) as [label | y] eqn:Hlabel;
      [| intros H; inversion H; subst; eapply to_string_native, Hlabel].
    destruct (strip_dashes _) as [id | y] eqn:Hid; [discriminate |].
    intros H. inversion H. subst. eapply strip_dashes_native, Hid.
  - intros H. inversion H. subst. eapply get_native, Hget.
Qed.

Lemma render_block_native (h : store) (st : rendering) (block e : value) :
  render_block h st block = Throw e -> native_error e.
Proof.
  unfold render_block.
  destruct (Js.get h block "type") as [type | x] eqn:Hget.
  - destruct (Js.is_str "child_page" type).
    + destruct (child_entry h block "child_page" _ _) eqn:Hentry;
        [discriminate |].
      intros H. inversion H. subst. eapply child_entry_native, Hentry.
    + destruct (Js.is_str "child_database" type).
      * destruct (child_entry h block "child_database" _ _) eqn:Hentry;
          [discriminate |].
        intros H. inversion H. subst. eapply child_entry_native, Hentry.
      * destruct (textContent h block type) eqn:Htext; [discriminate |].
        intros H. inversion H. subst. eapply textContent_native, Htext.
  - intros H. inversion H. subst. eapply get_native, Hget.
Qed.

Lemma render_blocks_native (h : store) (blocks : list value) :
  forall st e, render_blocks h st blocks = Throw e -> native_error e.
Proof.
  induction blocks as [| block rest IH]; cbn; intros st e; [discriminate |].
  destruct (render_block h st block) as [st' | x] eqn:Hblock.
  - apply IH.
  - intros H. inversion H. subst. eapply render_block_native, Hblock.
Qed.

Lemma render_native (h : store) (blocksResponse pageResponse e : value) :
  render h blocksResponse pageResponse = Throw e -> native_error e.
Proof.
  unfold render.
  destruct (notionPage_parse h pageResponse) as [props | x] eqn:Hparse;
    [| intros H; inversion H; subst; eapply notionPage_parse_native, Hparse].
  destruct (find_title h props) as [titleProp | x] eqn:Hfind;
    [| intros H; inversion H; subst; eapply find_title_native, Hfind].
  destruct (resolve_title h titleProp) as [title | x] eqn:Htitle;
    [| intros H; inversion H; subst; eapply resolve_title_native, Htitle].
  destruct (Js.get h blocksResponse "results") as [results | x] eqn:Hget;
    [| intros H; inversion H; subst; eapply get_native, Hget].
  destruct (iterate results) as [blocks | x] eqn:Hiter;
    [| intros H; inversion H; subst; eapply iterate_native, Hiter].
  destruct (render_blocks h _ blocks) as [st | x] eqn:Hblocks;
    [| intros H; inversion H; subst; eapply render_blocks_native, Hblocks].
  destruct (Js.to_string h title) as [heading | x] eqn:Hheading;
    [discriminate |].
  intros H. inversion H. subst. eapply to_string_native, Hheading.
Qed.

Lemma handler_returns (h : store) (line : list value) (e message : value)
      (t : list event) (wrap : value -> envelope) :
  formatError h e = (t, Normal message) ->
  result (log line ;;; m <- formatError h e ;; ret (wrap m))
  = Normal (wrap message).
Proof.
  intros Hformat. rewrite result_bind. cbn [log result snd].
  rewrite result_bind, Hformat. reflexivity.
Qed.


(** *** What the serialiser can throw *)

Lemma elements_throws (rec : string -> value -> Json.outcome)
      (items : list value) :
  Forall (fun v => forall ind x,
              rec ind v = Some (Throw x) -> x = Json.CircularError) items ->
  forall ind x,
    Json.elements rec ind items = Some (Throw x) -> x = Json.CircularError.
Proof.
  induction 1 as [| v rest Hv _ IH]; intros ind x; cbn; [discriminate |].
  destruct (rec ind v) as [[t | e] |] eqn:Hrec; try discriminate.
  - destruct (Json.elements rec ind rest) as [[ts | e] |] eqn:Hrest;
      try discriminate.
    intros H. apply (IH ind x). rewrite Hrest. exact H.
  - intros H. inversion H. subst. eapply Hv, Hrec.
Qed.

Lemma members_throws (rec : string -> value -> Json.outcome)
      (props : list (string * value)) :
  Forall (fun kv => forall ind x,
              rec ind (snd kv) = Some (Throw x) -> x = Json.CircularError)
         props ->
  forall ind x,
    Json.members rec ind props = Some (Throw x) -> x = Json.CircularError.
Proof.
  induction 1 as [| [k v] rest Hv _ IH]; intros ind x; cbn; [discriminate |].
  cbn in Hv.
  destruct (rec ind v) as [[t | e] |] eqn:Hrec; try discriminate.
  - destruct (Json.members rec ind rest) as [[ts | e] |] eqn:Hrest;
      try discriminate.
    intros H. apply (IH ind x). rewrite Hrest. exact H.
  - intros H. inversion H. subst. eapply Hv, Hrec.
Qed.

Lemma finish_throws (o c ind : string) (r : option (completion (list string)))
      (x : value) :
  Json.finish o c ind r = Some (Throw x) -> r = Some (Throw x).
Proof.
  destruct r as [[ts | e] |]; cbn; intros H; inversion H; reflexivity.
Qed.

Lemma ser_throws (h : store) (fuel : nat) :
  forall stack v ind x,
    Json.ser h fuel stack ind v = Some (Throw x) -> x = Json.CircularError.
Proof.
  induction fuel as [| fuel IHfuel]; intros stack v;
    induction v as [| | b | n | s | items IH | props IH
                    | name message props IH | a] using value_nested_ind;
    intros ind x; cbn; try discriminate;
    try (intros H; apply finish_throws in H; revert H;
         first [apply elements_throws | apply members_throws];
         assumption).
  - destruct (existsb (Nat.eqb a) stack);
      [intros H; inversion H; reflexivity |].
    destruct (nth_error h a); discriminate.
  - destruct (existsb (Nat.eqb a) stack);
      [intros H; inversion H; reflexivity |].
    destruct (nth_error h a) as [props |]; [| discriminate].
    intros H. apply finish_throws in H. revert H. apply members_throws.
    apply Forall_forall. intros kv _ ind' x'. apply IHfuel.
Qed.

(** [JSON.stringify] throws nothing but the error of a circular structure. *)
Lemma stringify_throws (h : store) (v x : value) :
  Json.stringify h v = Throw x -> x = Json.CircularError.
Proof.
  unfold Json.stringify.
  destruct (Json.ser h (length h) [] EmptyString v) as [[t | e] |] eqn:Hser;
    intros H; inversion H; subst; [| reflexivity].
  eapply ser_throws, Hser.
Qed.

(** ** What the handlers return *)

Lemma bind_normal {A B : Type} (m : M A) (k : A -> M B) (b : B) :
  result (bind m k) = Normal b ->
  exists a, result m = Normal a /\ result (k a) = Normal b.
Proof.
  rewrite result_bind. destruct (result m) as [a | e]; [eauto | discriminate].
Qed.

Lemma try_catch_normal {A : Type} (m : M A) (handler : value -> M A) (a : A) :
  result (try_catch m handler) = Normal a ->
  result m = Normal a
  \/ exists e, result m = Throw e /\ result (handler e) = Normal a.
Proof.
  rewrite result_try_catch. destruct (result m) as [a' | e]; eauto.
Qed.

(** With [body.message] and [message] typed as strings where present, what
    [formatError] returns is a string. *)
Lemma formatError_value (h : store) (error v : value) :
  optional_string (Js.get_opt h (Js.own h error "body") "message") ->
  optional_string (Js.own h error "message") ->
  result (formatError h error) = Normal v -> is_string v.
Proof.
  intros Hnested Hmessage. unfold formatError. intros H.
  apply bind_normal in H. destruct H as (json & _ & H).
  apply bind_normal in H. destruct H as ([] & _ & H).
  apply bind_normal in H. destruct H as (status & _ & H).
  destruct (Js.is_num 404 status);
    [| destruct (Js.is_num 401 status);
       [| destruct (Js.is_num 400 status);
          [| destruct (Js.truthy (Js.own h error "code")) ] ] ];
    repeat (apply bind_normal in H; destruct H as (? & _ & H));
    try (injection H as <-; eexists; reflexivity).
  injection H as <-. unfold detail, Js.or_else.
  destruct (Js.truthy (Js.get_opt h (Js.own h error "body") "message"))
    eqn:Hn; cbv iota.
  - rewrite Hn.
    destruct Hnested as [Hu | Hs]; [rewrite Hu in Hn; discriminate | exact Hs].
  - destruct (Js.truthy (Js.own h error "message")) eqn:Hm.
    + destruct Hmessage as [Hu | Hs];
        [rewrite Hu in Hm; discriminate | exact Hs].
    + eexists. reflexivity.
Qed.

(** The [catch] block of [read_page] and [retrieve_database]. *)
Lemma absorbed_value (h : store) (line : list value) (e : value)
      (env : envelope) :
  optional_string (Js.get_opt h (Js.own h e "body") "message") ->
  optional_string (Js.own h e "message") ->
  result (log line ;;; message <- formatError h e ;; ret (text_envelope message))
  = Normal env ->
  exists s, env = text_envelope (VStr s).
Proof.
  intros Hnested Hmessage H.
  apply bind_normal in H. destruct H as ([] & _ & H).
  apply bind_normal in H. destruct H as (message & Hformat & H).
  injection H as <-.
  destruct (@formatError_value h e message Hnested Hmessage Hformat) as [s ->].
  eauto.
Qed.

Lemma native_optional (h : store) (e : value) :
  native_error e ->
  optional_string (Js.get_opt h (Js.own h e "body") "message")
  /\ optional_string (Js.own h e "message").
Proof.
  intros Hnative.
  destruct (native_typed h Hnative) as (Hbody & Hmessage & _).
  split; [left; exact Hbody | right; exact Hmessage].
Qed.

(** C7, as stated, fails on the text where the collaborator leaves its
    declared types: the envelope of an absorbed failure whose message is the
    number 42 carries that number, and a database tool whose remote result is
    [undefined] returns no text at all. *)
Lemma envelope_text_not_always_string :
  result (read_page [] (rejecting (VObj [("message", VNum 42)]))
                    (VObj [("pageId", VStr "59833787")]))
  = Normal {| content := [ {| type := "text"; text := VNum 42 |} ] |}
  /\ result (retrieve_database [] (resolving VUndefined)
                               (VObj [("databaseId", VStr "d9824bdc")]))
     = Normal {| content := [ {| type := "text"; text := VUndefined |} ] |}
  /\ ~ is_string (VNum 42) /\ ~ is_string VUndefined.
Proof.
  repeat split; intros [s Hs]; discriminate Hs.
Qed.

(** C7, as amended.  When the collaborator keeps to its declared types (the
    failures it rejects with carry strings, where present, as [message] and
    as [body.message]; what [databases.retrieve] resolves with is not
    [undefined]; what [databases.query] resolves with has [results]),
    whatever one of the four handlers returns, on success or on an absorbed
    failure, is an envelope with exactly one content element, of type "text",
    whose text is a string. *)
Theorem handlers_return_one_text (h : store) (notion : collaborator)
        (args : value) (env : envelope) :
  (forall c e,
      respond notion c = Throw e ->
      optional_string (Js.get_opt h (Js.own h e "body") "message")
      /\ optional_string (Js.own h e "message")) ->
  (forall database_id response,
      respond notion (databases_retrieve database_id) = Normal response ->
      response <> VUndefined) ->
  (forall database_id filter sorts response,
      respond notion (databases_query database_id filter sorts)
      = Normal response ->
      Js.own h response "results" <> VUndefined) ->
  result (search_pages h notion args) = Normal env
  \/ result (read_page h notion args) = Normal env
  \/ result (query_database h notion args) = Normal env
  \/ result (retrieve_database h notion args) = Normal env ->
  exists s, content env = [ {| type := "text"; text := VStr s |} ].
Proof.
  intros Hfailures Hretrieve Hquery [H | [H | [H | H]]].
  - unfold search_pages in H.
    apply bind_normal in H. destruct H as (query & _ & H).
    apply bind_normal in H. destruct H as ([] & _ & H).
    apply bind_normal in H. destruct H as (response & _ & H).
    apply bind_normal in H. destruct H as (results & _ & H).
    destruct (negb (Js.truthy results)
              || Js.is_num 0 (Js.own h results "length")).
    + injection H as <-. eexists. reflexivity.
    + destruct results; try discriminate H.
      apply bind_normal in H. destruct H as (lines & _ & H).
      apply bind_normal in H. destruct H as (count & _ & H).
      injection H as <-. eexists. reflexivity.
  - unfold read_page in H.
    apply bind_normal in H. destruct H as (pageId & _ & H).
    apply try_catch_normal in H. destruct H as [H | (e & Hthrown & H)].
    + apply bind_normal in H. destruct H as (responses & _ & H).
      apply bind_normal in H. destruct H as (output & _ & H).
      injection H as <-. eexists. reflexivity.
    + assert (Htyped :
                optional_string (Js.get_opt h (Js.own h e "body") "message")
                /\ optional_string (Js.own h e "message")).
      { rewrite result_bind in Hthrown. unfold list_and_retrieve in Hthrown.
        cbn [result snd] in Hthrown.
        destruct (respond notion (blocks_children_list (VStr pageId)))
          as [blocksResponse | e1] eqn:Hblocks;
          destruct (respond notion (pages_retrieve (VStr pageId)))
            as [pageResponse | e2] eqn:Hpage.
        - rewrite result_bind in Hthrown. cbn [lift result snd fst] in Hthrown.
          destruct (render h blocksResponse pageResponse) as [s | x] eqn:Hrender;
            [discriminate Hthrown |].
          injection Hthrown as <-.
          eapply native_optional, render_native, Hrender.
        - injection Hthrown as <-. eapply Hfailures, Hpage.
        - injection Hthrown as <-. eapply Hfailures, Hblocks.
        - injection Hthrown as <-.
          destruct (retrieve_settles_first notion);
            [eapply Hfailures, Hpage | eapply Hfailures, Hblocks]. }
      destruct Htyped as [Hnested Hmessage].
      destruct (@absorbed_value h _ e env Hnested Hmessage H) as [s ->].
      eexists. reflexivity.
  - unfold query_database in H.
    apply bind_normal in H. destruct H as (args' & _ & H).
    apply try_catch_normal in H. destruct H as [H | (e & _ & H)].
    + apply bind_normal in H. destruct H as (response & Hcall & H).
      apply bind_normal in H. destruct H as (results & Hresults & H).
      apply bind_normal in H. destruct H as (json & Hjson & H).
      injection H as <-.
      assert (Hdefined : results <> VUndefined).
      { unfold call in Hcall. cbn [result snd] in Hcall.
        apply Hquery in Hcall. cbn [lift result snd] in Hresults.
        unfold Js.get in Hresults.
        destruct (Js.nullish response); [discriminate Hresults |].
        injection Hresults as <-. exact Hcall. }
      destruct (stringify_text h Hjson Hdefined) as [s ->].
      eexists. reflexivity.
    + apply bind_normal in H. destruct H as ([] & _ & H).
      apply bind_normal in H. destruct H as (message & _ & H).
      apply bind_normal in H. destruct H as (shown & _ & H).
      injection H as <-. eexists. reflexivity.
  - unfold retrieve_database in H.
    apply bind_normal in H. destruct H as (args' & _ & H).
    apply try_catch_normal in H. destruct H as [H | (e & Hthrown & H)].
    + apply bind_normal in H. destruct H as (response & Hcall & H).
      apply bind_normal in H. destruct H as (json & Hjson & H).
      injection H as <-.
      unfold call in Hcall. cbn [result snd] in Hcall.
      apply Hretrieve in Hcall.
      destruct (stringify_text h Hjson Hcall) as [s ->].
      eexists. reflexivity.
    + assert (Htyped :
                optional_string (Js.get_opt h (Js.own h e "body") "message")
                /\ optional_string (Js.own h e "message")).
      { rewrite result_bind in Hthrown. unfold call in Hthrown.
        cbn [result snd] in Hthrown.
        destruct (respond notion _) as [response | e1] eqn:Hcall.
        - rewrite result_bind in Hthrown. cbn [lift result snd] in Hthrown.
          destruct (Json.stringify h response) as [json | x] eqn:Hjson;
            [discriminate Hthrown |].
          injection Hthrown as <-.
          rewrite (stringify_throws _ _ Hjson).
          apply native_optional. left. eexists. reflexivity.
        - injection Hthrown as <-. eapply Hfailures, Hcall. }
      destruct Htyped as [Hnested Hmessage].
      destruct (@absorbed_value h _ e env Hnested Hmessage H) as [s ->].
      eexists. reflexivity.
Qed.

Lemma handlers_return_one_text_witness :
  exists s,
    content (text_envelope
               (VStr ("# Notes" ++ Text.nl ++ Text.nl ++ "Hello" ++ Text.nl
                      ++ "[ ] Buy milk")))
    = [ {| type := "text"; text := VStr s |} ].
Proof.
  apply (@handlers_return_one_text [] notes_remote
           (VObj [("pageId", VStr "59833787")])).
  - intros c e H. destruct c; inversion H; subst e;
      (split; [left; reflexivity | right; eexists; reflexivity]).
  - intros database_id response H. discriminate H.
  - intros database_id filter sorts response H. discriminate H.
  - right. left. reflexivity.
Defined.

(** * Further properties of the source *)

(** ** The catalog and the dispatcher *)

Lemma quiet_try_catch {A : Type} (m : M A) (handler : value -> M A) :
  quiet m -> (forall e, quiet (handler e)) -> quiet (try_catch m handler).
Proof.
  unfold quiet. intros Hm Hhandler. rewrite remote_calls_try_catch, Hm.
  destruct (result m); [reflexivity | apply Hhandler].
Qed.

Lemma quiet_throw {A : Type} (e : value) : quiet (@throw A e).
Proof. reflexivity. Qed.

#[export] Hint Resolve quiet_throw : quiet.
#[export] Hint Extern 2 (quiet (try_catch _ _)) =>
  apply quiet_try_catch; [| intro] : quiet.




(** ** Validation of the arguments *)

Lemma parse_string_field_cases (h : store) (field : string) (args : value) :
  (exists q,
      parse_string_field h field args = Normal q
      /\ Zod.is_object args = true /\ Js.own h args field = VStr q)
  \/ (exists issues,
         parse_string_field h field args = Throw (Zod.ZodError issues)
         /\ (Zod.is_object args = false
             \/ forall q, Js.own h args field <> VStr q)).
Proof.
  unfold parse_string_field.
  destruct (Zod.is_object args) eqn:Hobject.
  - destruct (Js.own h args field) eqn:Hfield;
      try (right; eexists; split; [reflexivity | right; discriminate]).
    left. eexists. repeat split.
  - right. eexists. split; [reflexivity | left; reflexivity].
Qed.

(** X2.  [search_pages] and [read_page] accept their arguments exactly when
    these are an object whose [query] (or [pageId]) is a string, whatever
    else the object holds; otherwise the request fails with the validation
    error, which the dispatcher logs and rethrows, and nothing is sent to
    the collaborator. *)
Theorem validation_gate (h : store) (notion : collaborator) (args : value) :
  ((exists q, searchPages_parse h args = Normal q)
   <-> Zod.is_object args = true /\ exists q, Js.own h args "query" = VStr q)
  /\ ((exists p, readPage_parse h args = Normal p)
      <-> Zod.is_object args = true
          /\ exists p, Js.own h args "pageId" = VStr p)
  /\ ((forall q, searchPages_parse h args <> Normal q) ->
      exists issues,
        call_tool h notion "search_pages" args
        = ([Logged [VStr "Error executing tool search_pages:";
                    Zod.ZodError issues]],
           Throw (Zod.ZodError issues)))
  /\ ((forall p, readPage_parse h args <> Normal p) ->
      exists issues,
        call_tool h notion "read_page" args
        = ([Logged [VStr "Error executing tool read_page:";
                    Zod.ZodError issues]],
           Throw (Zod.ZodError issues))).
Proof.
  unfold searchPages_parse, readPage_parse.
  split; [| split; [| split]].
  - destruct (parse_string_field_cases h "query" args)
      as [(q & Hq & Hobject & Hfield) | (issues & Hthrow & Hwhy)].
    + split; eauto.
    + split.
      * intros [q Hq]. congruence.
      * intros [Hobject [q Hfield]].
        destruct Hwhy as [Hno | Hno]; [congruence | elim (Hno q Hfield)].
  - destruct (parse_string_field_cases h "pageId" args)
      as [(q & Hq & Hobject & Hfield) | (issues & Hthrow & Hwhy)].
    + split; eauto.
    + split.
      * intros [q Hq]. congruence.
      * intros [Hobject [q Hfield]].
        destruct Hwhy as [Hno | Hno]; [congruence | elim (Hno q Hfield)].
  - intros Hinvalid.
    destruct (parse_string_field_cases h "query" args)
      as [(q & Hq & _) | (issues & Hthrow & _)]; [elim (Hinvalid q Hq) |].
    exists issues. unfold call_tool.
    cbn [toolHandlers String.eqb Ascii.eqb Bool.eqb].
    rewrite (search_pages_validates h notion args Hthrow). reflexivity.
  - intros Hinvalid.
    destruct (parse_string_field_cases h "pageId" args)
      as [(q & Hq & _) | (issues & Hthrow & _)]; [elim (Hinvalid q Hq) |].
    exists issues. unfold call_tool.
    cbn [toolHandlers String.eqb Ascii.eqb Bool.eqb].
    rewrite (read_page_validates h notion args Hthrow). reflexivity.
Qed.

(** ** The remote calls of each handler *)

Lemma remote_calls_lift {A B : Type} (a : A) (k : A -> M B) :
  remote_calls (bind (lift (Normal a)) k) = remote_calls (k a).
Proof.
  rewrite remote_calls_bind. reflexivity.
Qed.

Lemma remote_calls_log {B : Type} (args : list value) (k : unit -> M B) :
  remote_calls (bind (log args) k) = remote_calls (k tt).
Proof.
  rewrite remote_calls_bind. reflexivity.
Qed.

Lemma remote_calls_call {A : Type} (notion : collaborator) (c : remote_call)
      (k : value -> M A) :
  (forall v, quiet (k v)) -> remote_calls (bind (call notion c) k) = [c].
Proof.
  intros Hk. rewrite remote_calls_bind. unfold call. cbn [result snd].
  destruct (respond notion c) as [v | e]; [rewrite (Hk v) |]; reflexivity.
Qed.

Lemma quiet_page_title (h : store) (page : value) : quiet (page_title h page).
Proof.
  unfold page_title. auto with quiet.
Qed.

Lemma quiet_format_pages (h : store) (pages : list value) :
  quiet (format_pages h pages).
Proof.
  induction pages as [| page rest IH]; cbn [format_pages]; [apply quiet_ret |].
  apply quiet_bind.
  - unfold format_page. apply quiet_bind; [apply quiet_page_title |].
    intros title. auto with quiet.
  - intros line. apply quiet_bind; [exact IH | auto with quiet].
Qed.

(** X3.  Once its arguments are accepted, [search_pages] sends exactly one
    request to the collaborator, the search for the validated query,
    whatever the answer is and however the titles come out. *)
Theorem search_pages_one_call (h : store) (notion : collaborator)
        (args : value) (query : string) :
  searchPages_parse h args = Normal query ->
  remote_calls (search_pages h notion args) = [search (VStr query)].
Proof.
  intros Hparse. unfold search_pages. rewrite Hparse.
  rewrite remote_calls_lift, remote_calls_log.
  apply remote_calls_call. intros response.
  apply quiet_bind; [apply quiet_lift |]. intros results.
  destruct (negb (Js.truthy results)
            || Js.is_num 0 (Js.own h results "length"));
    [apply quiet_ret |].
  destruct results; try apply quiet_throw.
  apply quiet_bind; [apply quiet_format_pages | auto with quiet].
Qed.

Lemma search_pages_one_call_witness :
  remote_calls (search_pages [] (rejecting unauthorized)
                             (VObj [("query", VStr "roadmap")]))
  = [search (VStr "roadmap")].
Proof.
  apply (search_pages_one_call [] (rejecting unauthorized)
           (VObj [("query", VStr "roadmap")]) (query := "roadmap")).
  reflexivity.
Defined.

(** X4.  Once its arguments are accepted, [read_page] sends exactly two
    requests, the block list and then the page, both for the validated
    identifier and both even when the first one is rejected; rendering and
    error formatting send nothing. *)
Theorem read_page_two_calls (h : store) (notion : collaborator)
        (args : value) (pageId : string) :
  readPage_parse h args = Normal pageId ->
  remote_calls (read_page h notion args)
  = [blocks_children_list (VStr pageId); pages_retrieve (VStr pageId)].
Proof.
  intros Hparse. unfold read_page. rewrite Hparse, remote_calls_lift.
  rewrite remote_calls_try_catch, remote_calls_bind, result_bind.
  assert (Hcalls : remote_calls (list_and_retrieve notion pageId)
                   = [blocks_children_list (VStr pageId);
                      pages_retrieve (VStr pageId)]) by reflexivity.
  rewrite Hcalls.
  assert (Hhandler : forall e,
             remote_calls
               (log [VStr "Error reading page:"; e] ;;;
                message <- formatError h e ;; ret (text_envelope message))
             = []).
  { intros e. change (quiet (log [VStr "Error reading page:"; e] ;;;
                             message <- formatError h e ;;
                             ret (text_envelope message))).
    auto with quiet. }
  destruct (result (list_and_retrieve notion pageId)) as [responses | e].
  - assert (Hrest : remote_calls
                      (output <- lift (render h (fst responses) (snd responses)) ;;
                       ret (text_envelope (VStr output))) = []).
    { change (quiet (output <- lift (render h (fst responses) (snd responses)) ;;
                     ret (text_envelope (VStr output)))).
      auto with quiet. }
    rewrite Hrest.
    destruct (result _); [reflexivity | rewrite Hhandler; reflexivity].
  - rewrite Hhandler. reflexivity.
Qed.

Lemma read_page_two_calls_witness :
  remote_calls (read_page [] (rejecting page_not_found)
                          (VObj [("pageId", VStr "59833787")]))
  = [blocks_children_list (VStr "59833787"); pages_retrieve (VStr "59833787")].
Proof.
  apply (read_page_two_calls [] (rejecting page_not_found)
           (VObj [("pageId", VStr "59833787")]) (pageId := "59833787")).
  reflexivity.
Defined.

(** X5.  The database tools check nothing but that there are arguments: for
    [undefined] or [null] they fail at once, without a remote call;
    otherwise each sends exactly one request, [retrieve_database] with the
    given [databaseId], [query_database] with [databaseId] and [filter] as
    given and with [sort] wrapped into a one-element list, or [undefined]
    when it is falsy. *)
Theorem database_tools_forward (h : store) (notion : collaborator)
        (args : value) :
  remote_calls (retrieve_database h notion args)
  = (if Js.nullish args then []
     else [databases_retrieve (Js.own h args "databaseId")])
  /\ remote_calls (query_database h notion args)
     = (if Js.nullish args then []
        else [databases_query (Js.own h args "databaseId")
                (Js.own h args "filter")
                (if Js.truthy (Js.own h args "sort")
                 then VArr [Js.own h args "sort"] else VUndefined)])
  /\ (Js.nullish args = true ->
      exists message,
        retrieve_database h notion args = ([], Throw (Js.TypeError message))
        /\ query_database h notion args = ([], Throw (Js.TypeError message))).
Proof.
  unfold retrieve_database, query_database, destructure.
  destruct (Js.nullish args) eqn:Hargs.
  - split; [reflexivity |]. split; [reflexivity |].
    intros _. eexists. split; reflexivity.
  - rewrite !remote_calls_lift. cbv zeta.
    split; [| split; [| discriminate]]; apply one_call; auto with quiet.
Qed.



(** X7.  The three handlers with a [try] block absorb every failure of the
    collaborator that is a cycle-free value other than [undefined] and
    [null] and whose detail and code convert to text, as strings and
    missing fields do, and every exception of their own making: with
    accepted arguments, [read_page], [query_database] and
    [retrieve_database] return an envelope and throw nothing. *)
Theorem guarded_handlers_absorb (h : store) (notion : collaborator)
        (args : value) :
  (forall c e, respond notion c = Throw e ->
               ref_free e = true /\ Js.nullish e = false
               /\ Js.converts h (detail h e) = true
               /\ Js.converts h (Js.own h e "code") = true) ->
  ((exists pageId, readPage_parse h args = Normal pageId) ->
   exists env, result (read_page h notion args) = Normal env)
  /\ (Js.nullish args = false ->
      (exists env, result (query_database h notion args) = Normal env)
      /\ (exists env, result (retrieve_database h notion args) = Normal env)).
Proof.
  intros Hremote.
  set (formatted := fun e =>
         exists t message,
           formatError h e = (t, Normal message)
           /\ Js.converts h message = true).
  assert (Hrejected : forall c e, respond notion c = Throw e -> formatted e).
  { intros c e He. destruct (Hremote c e He) as (Hfree & Hnull & Hd & Hc).
    apply formatError_converts; assumption. }
  assert (Hnative : forall e, native_error e -> formatted e).
  { intros e He. destruct (formatError_native h He) as (t & s & Hformat).
    exists t, (VStr s). split; [exact Hformat | reflexivity]. }
  assert (Habsorb : forall e line (wrap : value -> envelope),
             formatted e ->
             exists env,
               result (log line ;;; m <- formatError h e ;; ret (wrap m))
               = Normal env).
  { intros e line wrap (t & message & Hformat & _).
    eexists. apply handler_returns with (t := t). exact Hformat. }
  assert (Habsorb' : forall e line (wrap : string -> envelope),
             formatted e ->
             exists env,
               result (log line ;;; m <- formatError h e ;;
                       s <- lift (Js.to_string h m) ;; ret (wrap s))
               = Normal env).
  { intros e line wrap (t & message & Hformat & Hconverts).
    destruct (converts_text _ _ Hconverts) as [s Hs].
    exists (wrap s). rewrite result_bind. cbn [log result snd].
    rewrite result_bind, Hformat. cbn [result snd].
    rewrite result_bind. cbn [lift result snd]. rewrite Hs. reflexivity. }
  split.
  - intros [pageId Hparse]. unfold read_page. rewrite Hparse.
    unfold lift at 1. rewrite result_bind. cbn [result snd].
    rewrite result_try_catch, result_bind.
    unfold list_and_retrieve. cbn [result snd].
    destruct (respond notion (blocks_children_list (VStr pageId)))
      as [blocksResponse | e1] eqn:Hblocks;
      destruct (respond notion (pages_retrieve (VStr pageId)))
        as [pageResponse | e2] eqn:Hpage;
      try (apply Habsorb; eauto; fail).
    + rewrite result_bind. cbn [lift result snd fst].
      destruct (render h blocksResponse pageResponse) as [s | e] eqn:Hrender;
        [eexists; reflexivity |].
      apply Habsorb. eapply Hnative, render_native, Hrender.
    + destruct (retrieve_settles_first notion); apply Habsorb; eauto.
  - intros Hargs. split.
    + unfold query_database, destructure. rewrite Hargs. unfold lift at 1.
      rewrite result_bind. cbn [result snd]. cbv zeta.
      rewrite result_try_catch, result_bind. unfold call. cbn [result snd].
      match goal with
      | |- context [respond notion ?c] =>
          destruct (respond notion c) as [response | e] eqn:Hcall
      end; [| apply Habsorb'; eauto].
      rewrite result_bind. cbn [lift result snd].
      destruct (Js.get h response "results") as [results | e] eqn:Hget;
        [| apply Habsorb'; eapply Hnative, get_native, Hget].
      rewrite result_bind. cbn [lift result snd].
      destruct (Json.stringify h results) as [json | e] eqn:Hjson;
        [eexists; reflexivity |].
      apply Habsorb'. apply Hnative.
      rewrite (stringify_throws _ _ Hjson). left. eexists. reflexivity.
    + unfold retrieve_database, destructure. rewrite Hargs. unfold lift at 1.
      rewrite result_bind. cbn [result snd]. cbv zeta.
      rewrite result_try_catch, result_bind. unfold call. cbn [result snd].
      match goal with
      | |- context [respond notion ?c] =>
          destruct (respond notion c) as [response | e] eqn:Hcall
      end; [| apply Habsorb; eauto].
      rewrite result_bind. cbn [lift result snd].
      destruct (Json.stringify h response) as [json | e] eqn:Hjson;
        [eexists; reflexivity |].
      apply Habsorb. apply Hnative.
      rewrite (stringify_throws _ _ Hjson). left. eexists. reflexivity.
Qed.

Lemma guarded_handlers_absorb_witness :
  exists env,
    result (retrieve_database [] (rejecting page_not_found)
                              (VObj [("databaseId", VStr "d9824bdc")]))
    = Normal env.
Proof.
  destruct (guarded_handlers_absorb [] (rejecting page_not_found)
              (VObj [("databaseId", VStr "d9824bdc")])) as [_ Hdb].
  - intros c e He. injection He as <-. repeat split; reflexivity.
  - destruct (Hdb eq_refl) as [_ Hretrieve]. exact Hretrieve.
Defined.

(** ** The list of search results *)

Lemma page_title_returns (h : store) (page : value) :
  exists t title, page_title h page = (t, Normal title).
Proof.
  unfold page_title. destruct (extract_title h page); cbn; eauto.
Qed.

(** The title is the slug, "Untitled", or what the properties give. *)
Lemma page_title_value (h : store) (page : value) :
  exists t title,
    page_title h page = (t, Normal title)
    /\ (is_string title
        \/ title = property_title h (Js.own h page "properties")).
Proof.
  unfold page_title, extract_title.
  destruct (Js.get h page "url") as [url | e];
    [| cbn; do 2 eexists; split; [reflexivity | left; eexists; reflexivity]].
  destruct (url_match url) as [[group |] | e];
    [ | | cbn; do 2 eexists; split;
          [reflexivity | left; eexists; reflexivity]].
  - unfold slug_title.
    destruct (Text.decodeURIComponent _) as [slug |];
      [| cbn; do 2 eexists; split;
         [reflexivity | left; eexists; reflexivity]].
    destruct (Js.is_str "Untitled" (VStr slug) && Js.truthy _);
      [destruct (Js.truthy (property_title h _)) |];
      unfold try_catch, lift; do 2 eexists; (split; [reflexivity |]);
      first [right; reflexivity | left; eexists; reflexivity].
  - destruct (Js.is_str "Untitled" (VStr "Untitled") && Js.truthy _);
      [destruct (Js.truthy (property_title h _)) |];
      unfold try_catch, lift; do 2 eexists; (split; [reflexivity |]);
      first [right; reflexivity | left; eexists; reflexivity].
Qed.

Lemma format_page_returns (h : store) (page : value) :
  presentable h page ->
  exists t title url,
    format_page h page = (t, Normal (result_line title url))
    /\ Js.to_string h (Js.own h page "url") = Normal url.
Proof.
  intros (Hpage & Hurl & Htitle). unfold format_page, Js.get. rewrite Hpage.
  destruct (page_title_value h page) as (t & title & -> & Hwhich).
  destruct (converts_text _ _ Hurl) as [url Hurl'].
  assert (Hshown : exists shown, Js.to_string h title = Normal shown).
  { destruct Hwhich as [[s ->] | ->];
      [eexists; reflexivity | apply converts_text, Htitle]. }
  destruct Hshown as [shown Hshown].
  cbn [bind lift]. rewrite Hshown, Hurl'. cbn. eauto.
Qed.

(** Whatever the page is, its line fails with nothing but a [TypeError]. *)
Lemma format_page_type_error (h : store) (page e : value) :
  result (format_page h page) = Throw e ->
  exists message, e = Js.TypeError message.
Proof.
  unfold format_page.
  destruct (page_title_returns h page) as (t & title & ->).
  rewrite result_bind. cbn [result snd].
  rewrite result_bind. cbn [lift result snd].
  destruct (Js.to_string h title) as [shown | x] eqn:Hshown.
  - rewrite result_bind. cbn [lift result snd]. unfold Js.get.
    destruct (Js.nullish page);
      [intros H; injection H as <-; eexists; reflexivity |].
    rewrite result_bind. cbn [lift result snd].
    destruct (Js.to_string h (Js.own h page "url")) as [url | y] eqn:Hurl;
      [discriminate |].
    intros H. injection H as <-.
    apply to_string_throws in Hurl. subst y. eexists; reflexivity.
  - intros H. injection H as <-.
    apply to_string_throws in Hshown. subst x. eexists; reflexivity.
Qed.

Lemma format_page_throws (h : store) (page : value) :
  Js.nullish page = true ->
  exists message, result (format_page h page) = Throw (Js.TypeError message).
Proof.
  intros Hpage.
  assert (Htitle : page_title h page
                   = ([Logged [VStr "Error extracting title:";
                               Js.TypeError
                                 ("Cannot read properties of "
                                  ++ Js.nullish_text page
                                  ++ " (reading 'url')")]],
                      Normal (VStr "Untitled"))).
  { unfold page_title, extract_title, Js.get. rewrite Hpage. reflexivity. }
  unfold format_page. rewrite Htitle. unfold Js.get. rewrite Hpage.
  cbn. eauto.
Qed.

Lemma format_pages_returns (h : store) (pages : list value) :
  Forall (presentable h) pages ->
  exists t lines,
    format_pages h pages = (t, Normal lines)
    /\ Forall2 (fun page line =>
                  exists title url,
                    Js.to_string h (Js.own h page "url") = Normal url
                    /\ line = result_line title url)
               pages lines.
Proof.
  induction 1 as [| page rest Hpage _ IH]; cbn [format_pages].
  - exists [], []. split; [reflexivity | constructor].
  - destruct (format_page_returns Hpage) as (t & title & url & -> & Hurl).
    destruct IH as (t' & lines & -> & Hlines).
    cbn. eexists. eexists. split; [reflexivity |].
    constructor; eauto.
Qed.

Lemma format_pages_throws (h : store) (pages : list value) :
  Exists (fun page => Js.nullish page = true) pages ->
  exists message, result (format_pages h pages) = Throw (Js.TypeError message).
Proof.
  induction pages as [| page rest IH]; intros Hsome;
    [inversion Hsome |].
  cbn [format_pages]. rewrite result_bind.
  destruct (result (format_page h page)) as [line | e] eqn:Hline.
  - rewrite result_bind.
    inversion Hsome as [? ? Hhead | ? ? Htail]; subst.
    + destruct (format_page_throws h page Hhead) as [message Hthrow].
      congruence.
    + destruct (IH Htail) as [message ->]. eauto.
  - destruct (format_page_type_error _ _ Hline) as [message ->]. eauto.
Qed.

(** X8.  For a non-empty list of matched pages, each there and with a URL
    and a property title that convert to text, [search_pages] answers with
    the count, the quoted query and one result line per page, in order, each
    made of a title and the text of the page's own [url]: a page whose title
    cannot be extracted still gets its line.  An entry that is [undefined]
    or [null] makes the whole search fail, with a [TypeError]. *)
Theorem search_pages_summary (h : store) (notion : collaborator)
        (args : value) (query : string) (response : value)
        (pages : list value) :
  searchPages_parse h args = Normal query ->
  respond notion (search (VStr query)) = Normal response ->
  Js.own h response "results" = VArr pages ->
  pages <> [] ->
  (Forall (presentable h) pages ->
   exists lines,
     Forall2 (fun page line =>
                exists title url,
                  Js.to_string h (Js.own h page "url") = Normal url
                  /\ line = result_line title url)
             pages lines
     /\ result (search_pages h notion args)
        = Normal (text_envelope
                    (VStr ("Found "
                           ++ Text.number_text (Z.of_nat (length pages))
                           ++ " pages matching " ++ Text.dq ++ query ++ Text.dq
                           ++ ":" ++ Text.nl ++ Text.nl
                           ++ String.concat (Text.nl ++ Text.nl) lines))))
  /\ (Exists (fun page => Js.nullish page = true) pages ->
      exists message,
        result (search_pages h notion args) = Throw (Js.TypeError message)).
Proof.
  intros Hparse Hremote Hresults Hsome.
  assert (Hresponse : Js.get h response "results" = Normal (VArr pages)).
  { unfold Js.get. destruct response; try discriminate Hresults;
      cbn [Js.nullish]; rewrite Hresults; reflexivity. }
  assert (Hstep : result (search_pages h notion args)
                  = result (lines <- format_pages h pages ;;
                            ret (text_envelope
                                   (VStr ("Found "
                                          ++ Text.number_text
                                               (Z.of_nat (length pages))
                                          ++ " pages matching " ++ Text.dq
                                          ++ query ++ Text.dq ++ ":"
                                          ++ Text.nl ++ Text.nl
                                          ++ String.concat (Text.nl ++ Text.nl)
                                                           lines))))).
  { unfold search_pages. rewrite Hparse. unfold lift at 1.
    rewrite result_bind. cbn [result snd].
    rewrite result_bind. cbn [log result snd].
    rewrite result_bind. unfold call. cbn [result snd]. rewrite Hremote.
    rewrite result_bind, Hresponse.
    destruct pages as [| page rest]; [contradiction |].
    assert (Hfound : negb (Js.truthy (VArr (page :: rest)))
                     || Js.is_num 0 (Js.own h (VArr (page :: rest)) "length")
                     = false) by reflexivity.
    cbn [lift result snd]. rewrite Hfound. rewrite !result_bind.
    destruct (result (format_pages h (page :: rest))); [| reflexivity].
    rewrite result_bind. reflexivity. }
  rewrite Hstep. split.
  - intros Hpages.
    destruct (format_pages_returns Hpages) as (t & lines & Hlines & Hall).
    exists lines. split; [exact Hall |].
    rewrite result_bind, Hlines. reflexivity.
  - intros Hnull.
    destruct (format_pages_throws h Hnull) as [message Hthrow].
    exists message. rewrite result_bind, Hthrow. reflexivity.
Qed.

Lemma search_pages_summary_witness :
  exists lines,
    result (search_pages []
              (resolving (VObj [("results", VArr [roadmap_page])]))
              (VObj [("query", VStr "roadmap")]))
    = Normal (text_envelope
                (VStr ("Found 1 pages matching " ++ Text.dq ++ "roadmap"
                       ++ Text.dq ++ ":" ++ Text.nl ++ Text.nl
                       ++ String.concat (Text.nl ++ Text.nl) lines))).
Proof.
  destruct (@search_pages_summary []
              (resolving (VObj [("results", VArr [roadmap_page])]))
              (VObj [("query", VStr "roadmap")]) "roadmap"
              (VObj [("results", VArr [roadmap_page])])
              [roadmap_page] eq_refl eq_refl eq_refl)
    as [Hlines _]; [discriminate |].
  destruct Hlines as (lines & _ & Hresult);
    [repeat constructor |].
  exists lines. exact Hresult.
Defined.

(** ** Titles and slugs *)

(** X9.  When the slug of the URL does not decode (a percent sign that
    starts no well-formed escape), the title is "Untitled" and the failure is
    logged: the properties of the page are not consulted, whatever they
    hold. *)
Theorem undecodable_slug_untitled (h : store) (page : value)
        (url group : string) :
  Js.own h page "url" = VStr url ->
  Text.match_slug url = Some group ->
  Text.decodeURIComponent (Text.replace_dashes " " group) = None ->
  page_title h page
  = ([Logged [VStr "Error extracting title:";
              VErr "URIError" "URI malformed" []]],
     Normal (VStr "Untitled"))
  /\ result (format_page h page)
     = Normal (result_line "Untitled" url).
Proof.
  intros Hurl Hmatch Hdecode.
  assert (Hpage : Js.nullish page = false).
  { destruct page; try reflexivity; discriminate Hurl. }
  assert (Htitle : page_title h page
                   = ([Logged [VStr "Error extracting title:";
                               VErr "URIError" "URI malformed" []]],
                      Normal (VStr "Untitled"))).
  { unfold page_title, extract_title, Js.get. rewrite Hpage, Hurl.
    cbn [url_match]. rewrite Hmatch. unfold slug_title. rewrite Hdecode.
    reflexivity. }
  split; [exact Htitle |].
  unfold format_page, Js.get. rewrite Htitle, Hpage, Hurl. reflexivity.
Qed.

Lemma undecodable_slug_untitled_witness :
  result (format_page []
            (VObj [("url", VStr "https://www.notion.so/100%-done-abc123");
                   ("properties",
                    VObj [("title",
                           VObj [("type", VStr "title");
                                 ("title", VArr [text_run "100% done"])])])]))
  = Normal (result_line "Untitled" "https://www.notion.so/100%-done-abc123").
Proof.
  apply (undecodable_slug_untitled []
           (VObj [("url", VStr "https://www.notion.so/100%-done-abc123");
                  ("properties",
                   VObj [("title",
                          VObj [("type", VStr "title");
                                ("title", VArr [text_run "100% done"])])])])
           (url := "https://www.notion.so/100%-done-abc123")
           (group := "100%-done"));
    reflexivity.
Defined.

Lemma free_of_app (c : ascii) (a b : string) :
  free_of c (a ++ b) = free_of c a && free_of c b.
Proof.
  unfold free_of. induction a as [| x a IH]; cbn; [reflexivity |].
  rewrite IH. apply andb_assoc.
Qed.

Lemma last_segment_free (s : string) :
  free_of "/" s = true -> Text.last_segment s = None.
Proof.
  unfold free_of. induction s as [| c s IH]; cbn; [reflexivity |].
  intros H. apply andb_true_iff in H. destruct H as [Hc Hs].
  rewrite (IH Hs). destruct (Ascii.eqb c "/"); [discriminate | reflexivity].
Qed.

Lemma greedy_group_free (s : string) :
  free_of "-" s = true -> Text.greedy_group s = None.
Proof.
  unfold free_of. induction s as [| c s IH]; cbn; [reflexivity |].
  intros H. apply andb_true_iff in H. destruct H as [Hc Hs].
  rewrite (IH Hs). destruct (Ascii.eqb c "-"); [discriminate | reflexivity].
Qed.

Lemma greedy_group_last_dash (words id : string) :
  free_of "-" id = true -> id <> EmptyString ->
  Text.greedy_group (words ++ String "-" id) = Some words.
Proof.
  intros Hfree Hid. induction words as [| c words IH]; cbn.
  - rewrite (greedy_group_free id Hfree).
    destruct (String.eqb_spec id EmptyString); [contradiction | reflexivity].
  - rewrite IH. reflexivity.
Qed.

Lemma tokens_plain (s : string) :
  free_of "%" s = true ->
  Text.tokens s = Some (map Text.Lit (list_ascii_of_string s)).
Proof.
  unfold free_of. induction s as [| c s IH]; cbn; [reflexivity |].
  intros H. apply andb_true_iff in H. destruct H as [Hc Hs].
  rewrite (IH Hs). destruct (Ascii.eqb c "%"); [discriminate | reflexivity].
Qed.

Lemma utf8_decode_plain (l : list ascii) :
  Text.utf8_decode (map Text.Lit l) = Some l.
Proof.
  induction l as [| c l IH]; cbn; [reflexivity |]. rewrite IH. reflexivity.
Qed.

(** [decodeURIComponent] leaves a text without percent sign as it is. *)
Lemma decode_plain (s : string) :
  free_of "%" s = true -> Text.decodeURIComponent s = Some s.
Proof.
  intros Hfree. unfold Text.decodeURIComponent.
  rewrite (tokens_plain s Hfree), utf8_decode_plain. cbn.
  rewrite string_of_list_ascii_of_string. reflexivity.
Qed.

Lemma replace_dashes_for_spaces (t : string) :
  free_of "-" t = true ->
  Text.replace_dashes " " (dashes_for_spaces t) = t.
Proof.
  unfold free_of. induction t as [| c t IH]; cbn; [reflexivity |].
  intros H. apply andb_true_iff in H. destruct H as [Hc Ht].
  destruct (Ascii.eqb_spec c " ") as [-> | Hspace]; cbn.
  - rewrite (IH Ht). reflexivity.
  - destruct (Ascii.eqb c "-"); [discriminate |].
    rewrite (IH Ht). reflexivity.
Qed.

Lemma dashes_for_spaces_free (t : string) :
  free_of "/" t = true -> free_of "/" (dashes_for_spaces t) = true.
Proof.
  unfold free_of. induction t as [| c t IH]; cbn; [reflexivity |].
  intros H. apply andb_true_iff in H. destruct H as [Hc Ht].
  rewrite (IH Ht), andb_true_r.
  destruct (Ascii.eqb c " "); [reflexivity | exact Hc].
Qed.

(** X10.  Slug and title go round: a title without dash, slash and percent
    sign, written into the URL with dashes for its spaces and followed by a
    dash and an identifier without dash and slash, is read back exactly,
    without any diagnostic, unless it reads "Untitled". *)
Theorem slug_round_trip (h : store) (page : value) (base title id : string) :
  title <> EmptyString -> title <> "Untitled" ->
  free_of "-" title = true -> free_of "/" title = true ->
  free_of "%" title = true ->
  id <> EmptyString -> free_of "-" id = true -> free_of "/" id = true ->
  Js.own h page "url"
  = VStr (base ++ String "/" (dashes_for_spaces title ++ String "-" id)) ->
  page_title h page = ([], Normal (VStr title)).
Proof.
  intros Htitle Hnot Hdash Hslash Hpercent Hid Hiddash Hidslash Hurl.
  assert (Hpage : Js.nullish page = false).
  { destruct page; try reflexivity; discriminate Hurl. }
  assert (Hmatch :
            Text.match_slug
              (base ++ String "/" (dashes_for_spaces title ++ String "-" id))
            = Some (dashes_for_spaces title)).
  { unfold Text.match_slug. rewrite last_segment_app.
    - rewrite (greedy_group_last_dash _ Hiddash Hid).
      destruct title; [contradiction | reflexivity].
    - apply last_segment_free.
      change (String "-" id) with ("-" ++ id).
      rewrite !free_of_app, (dashes_for_spaces_free title Hslash), Hidslash.
      reflexivity. }
  unfold page_title, extract_title, Js.get. rewrite Hpage, Hurl.
  cbn [url_match]. rewrite Hmatch. unfold slug_title.
  rewrite (replace_dashes_for_spaces title Hdash), (decode_plain title Hpercent).
  cbn [Js.is_str].
  destruct (String.eqb_spec title "Untitled"); [contradiction | reflexivity].
Qed.

Lemma slug_round_trip_witness :
  page_title [] roadmap_page = ([], Normal (VStr "Q3 Roadmap")).
Proof.
  apply (slug_round_trip [] roadmap_page "https://www.notion.so"
           (title := "Q3 Roadmap") (id := "abc123"));
    try reflexivity; discriminate.
Defined.

(** ** The heading of a rendered page *)

Lemma find_title_skips (h : store) (before rest : list value) :
  Forall (fun p => Js.nullish p = false
                   /\ Js.is_str "title" (Js.own h p "type") = false) before ->
  find_title h (before ++ rest) = find_title h rest.
Proof.
  induction 1 as [| p before [Hnull Htype] _ IH]; [reflexivity |].
  cbn. unfold Js.get. rewrite Hnull, Htype. exact IH.
Qed.

(** X11.  The heading of [read_page] comes from the first property whose
    type is "title", wherever it stands among the properties: the
    [plain_text] of its first run when that is truthy, and "Untitled" when
    the run is missing (an empty title) or its text is falsy; without any
    property of that type the heading is "Untitled" as well. *)
Theorem title_resolution (h : store) (before after : list value)
        (prop : value) (runs : list value) :
  Forall (fun p => Js.nullish p = false
                   /\ Js.is_str "title" (Js.own h p "type") = false) before ->
  Js.is_str "title" (Js.own h prop "type") = true ->
  Js.own h prop "title" = VArr runs ->
  find_title h (before ++ prop :: after) = Normal prop
  /\ resolve_title h prop
     = Normal (match runs with
               | first :: _ =>
                   if Js.truthy (Js.get_opt h first "plain_text")
                   then Js.get_opt h first "plain_text"
                   else VStr "Untitled"
               | [] => VStr "Untitled"
               end)
  /\ find_title h before = Normal VUndefined
  /\ resolve_title h VUndefined = Normal (VStr "Untitled").
Proof.
  intros Hbefore Htype Htitle.
  assert (Hprop : Js.nullish prop = false).
  { destruct prop; try reflexivity; discriminate Htype. }
  split; [| split; [| split]].
  - rewrite (find_title_skips h (prop :: after) Hbefore).
    cbn. unfold Js.get. rewrite Hprop, Htype. reflexivity.
  - unfold resolve_title, Js.get_opt. rewrite Hprop, Htype, Htitle.
    destruct runs as [| first rest]; reflexivity.
  - rewrite <- (app_nil_r before) at 1.
    rewrite (find_title_skips h [] Hbefore). reflexivity.
  - reflexivity.
Qed.

Lemma title_resolution_witness :
  resolve_title []
    (VObj [("id", VStr "title"); ("type", VStr "title"); ("title", VArr [])])
  = Normal (VStr "Untitled").
Proof.
  destruct (@title_resolution []
              [VObj [("type", VStr "rich_text"); ("rich_text", VArr [])]] []
              (VObj [("id", VStr "title"); ("type", VStr "title");
                     ("title", VArr [])])
              [])
    as (_ & Hresolve & _).
  - repeat constructor.
  - reflexivity.
  - reflexivity.
  - exact Hresolve.
Defined.

(** ** The three lists of the block loop *)

Lemma render_block_step (h : store) (st st' : rendering) (block : value) :
  render_block h st block = Normal st' ->
  let type := Js.own h block "type" in
  (Js.is_str "child_page" type = true
   /\ (exists line, childPages st' = (childPages st ++ [line])%list)
   /\ childDatabases st' = childDatabases st
   /\ contentBlocks st' = contentBlocks st)
  \/ (Js.is_str "child_page" type = false
      /\ Js.is_str "child_database" type = true
      /\ childPages st' = childPages st
      /\ (exists line, childDatabases st' = (childDatabases st ++ [line])%list)
      /\ contentBlocks st' = contentBlocks st)
  \/ (Js.is_str "child_page" type = false
      /\ Js.is_str "child_database" type = false
      /\ childPages st' = childPages st
      /\ childDatabases st' = childDatabases st
      /\ (contentBlocks st' = contentBlocks st
          \/ exists line, contentBlocks st' = (contentBlocks st ++ [line])%list)).
Proof.
  unfold render_block, Js.get.
  destruct (Js.nullish block); [discriminate |].
  destruct (Js.is_str "child_page" (Js.own h block "type")) eqn:Hpage.
  - destruct (child_entry h block "child_page" _ _); [| discriminate].
    intros H. injection H as <-. left. cbn. eauto 6.
  - destruct (Js.is_str "child_database" (Js.own h block "type")) eqn:Hdb.
    + destruct (child_entry h block "child_database" _ _); [| discriminate].
      intros H. injection H as <-. right. left. cbn. eauto 7.
    + destruct (textContent h block _); [| discriminate].
      intros H. injection H as <-. right. right. cbn.
      repeat split; try reflexivity.
      destruct (_ =? EmptyString); eauto.
Qed.

Lemma child_types_exclusive (type : value) :
  Js.is_str "child_page" type = true ->
  Js.is_str "child_database" type = false.
Proof.
  destruct type; try discriminate. cbn.
  destruct (String.eqb_spec s "child_page") as [-> | _];
    [reflexivity | discriminate].
Qed.

(** X13.  The block loop only ever appends.  After a run that does not
    throw, each of the three lists is the one before followed by new lines:
    exactly one for each child page in the child-page list, exactly one for
    each child database in the child-database list, and at most one content
    line for each of the other blocks; so a child block never adds body
    text. *)
Theorem render_blocks_extends (h : store) (blocks : list value)
        (st st' : rendering) :
  render_blocks h st blocks = Normal st' ->
  exists pages databases lines,
    childPages st' = (childPages st ++ pages)%list
    /\ childDatabases st' = (childDatabases st ++ databases)%list
    /\ contentBlocks st' = (contentBlocks st ++ lines)%list
    /\ length pages = length (blocks_of_type h "child_page" blocks)
    /\ length databases = length (blocks_of_type h "child_database" blocks)
    /\ length pages + length databases + length lines <= length blocks.
Proof.
  revert st. induction blocks as [| block rest IH]; cbn [render_blocks];
    intros st Hrun.
  - injection Hrun as <-. exists [], [], [].
    rewrite !app_nil_r. cbn. repeat split; auto.
  - destruct (render_block h st block) as [mid | e] eqn:Hblock;
      [| discriminate].
    destruct (IH mid Hrun)
      as (pages & dbs & lines & Hp & Hd & Hc & Hnp & Hnd & Hlen).
    unfold blocks_of_type in *. cbn [filter length].
    destruct (render_block_step h st block Hblock)
      as [(Hty & [line Hline] & Hdbs & Hbody)
         | [(Hty & Hty' & Hpg & [line Hline] & Hbody)
           | (Hty & Hty' & Hpg & Hdbs & Hbody)]].
    + rewrite Hty, (child_types_exclusive _ Hty).
      exists (line :: pages), dbs, lines.
      rewrite Hp, Hd, Hc, Hline, Hdbs, Hbody, <- app_assoc. cbn.
      repeat split; try reflexivity; lia.
    + rewrite Hty, Hty'.
      exists pages, (line :: dbs), lines.
      rewrite Hp, Hd, Hc, Hline, Hpg, Hbody, <- app_assoc. cbn.
      repeat split; try reflexivity; lia.
    + rewrite Hty, Hty'.
      destruct Hbody as [Hbody | [line Hline]].
      * exists pages, dbs, lines.
        rewrite Hp, Hd, Hc, Hpg, Hdbs, Hbody.
        repeat split; try reflexivity; lia.
      * exists pages, dbs, (line :: lines).
        rewrite Hp, Hd, Hc, Hpg, Hdbs, Hline, <- app_assoc. cbn.
        repeat split; try reflexivity; lia.
Qed.

Lemma render_blocks_extends_witness :
  exists pages databases lines,
    [page_marker ++ " Sub (ID: b23)"] = ([] ++ pages)%list
    /\ @nil string = ([] ++ databases)%list
    /\ ["Hello"] = ([] ++ lines)%list.
Proof.
  destruct (render_blocks_extends []
              [block_of "paragraph" [("rich_text", VArr [text_run "Hello"])];
               VObj [("type", VStr "child_page"); ("id", VStr "b-2-3");
                     ("child_page", VObj [("title", VStr "Sub")])]]
              nothing_rendered
              (st' := {| childPages := [page_marker ++ " Sub (ID: b23)"];
                         childDatabases := [];
                         contentBlocks := ["Hello"] |})
              eq_refl)
    as (pages & databases & lines & Hp & Hd & Hc & _).
  exists pages, databases, lines. cbn in Hp, Hd, Hc. auto.
Defined.

(** ** Child pages and child databases *)

Lemma replace_dashes_free (s : string) :
  free_of "-" (Text.replace_dashes EmptyString s) = true.
Proof.
  unfold free_of. induction s as [| c s IH]; cbn; [reflexivity |].
  destruct (Ascii.eqb c "-") eqn:Hc; cbn; [exact IH |].
  rewrite Hc, IH. reflexivity.
Qed.

Lemma replace_dashes_keeps (s : string) :
  free_of "-" s = true -> Text.replace_dashes EmptyString s = s.
Proof.
  unfold free_of. induction s as [| c s IH]; cbn; [reflexivity |].
  intros H. apply andb_true_iff in H. destruct H as [Hc Hs].
  destruct (Ascii.eqb c "-"); [discriminate |]. rewrite (IH Hs). reflexivity.
Qed.

(** X14.  A child page with a payload whose title converts to text and
    with a string identifier adds one line to the child-page list and
    nothing else: its marker, the text of its title or "Untitled Page" when
    the title is falsy, and its identifier with every dash removed (and
    otherwise unchanged).  A child page whose identifier is missing makes
    the loop throw a [TypeError]. *)
Theorem child_page_line (h : store) (st : rendering) (block : value)
        (id text : string) :
  Js.is_str "child_page" (Js.own h block "type") = true ->
  Js.nullish (Js.own h block "child_page") = false ->
  Js.own h block "id" = VStr id ->
  let title := Js.own h (Js.own h block "child_page") "title" in
  Js.to_string h title = Normal text ->
  let shown := Text.replace_dashes EmptyString id in
  render_block h st block
  = Normal {| childPages :=
                (childPages st
                 ++ [(page_marker ++ " "
                      ++ (if Js.truthy title then text else "Untitled Page")
                      ++ " (ID: " ++ shown ++ ")")%string])%list;
              childDatabases := childDatabases st;
              contentBlocks := contentBlocks st |}
  /\ free_of "-" shown = true
  /\ (free_of "-" id = true -> shown = id)
  /\ (forall other,
         Js.is_str "child_page" (Js.own h other "type") = true ->
         Js.nullish (Js.own h other "child_page") = false ->
         Js.own h other "id" = VUndefined ->
         exists message,
           render_block h st other = Throw (Js.TypeError message)).
Proof.
  intros Htype Hpayload Hid title Htext shown.
  assert (Hblock : forall b, Js.is_str "child_page" (Js.own h b "type") = true ->
                             Js.nullish b = false).
  { intros b Hb. destruct b; try reflexivity; discriminate Hb. }
  split; [| split; [apply replace_dashes_free
                   | split; [apply replace_dashes_keeps |]]].
  - unfold render_block, Js.get. rewrite (Hblock block Htype), Htype.
    unfold child_entry, Js.get. rewrite Hpayload. fold title.
    unfold Js.or_else. destruct (Js.truthy title).
    + rewrite Htext, Hid. reflexivity.
    + cbn [Js.to_string]. rewrite Hid. reflexivity.
  - intros other Hother Hpay Hmissing.
    unfold render_block, Js.get. rewrite (Hblock other Hother), Hother.
    unfold child_entry, Js.get. rewrite Hpay.
    destruct (Js.to_string h
                (Js.or_else (Js.own h (Js.own h other "child_page") "title")
                            (VStr "Untitled Page")))
      as [label | e] eqn:Hlabel.
    + rewrite Hmissing. eexists. reflexivity.
    + apply to_string_throws in Hlabel. subst e. eexists. reflexivity.
Qed.

Lemma child_page_line_witness :
  render_block [] nothing_rendered
    (VObj [("type", VStr "child_page");
           ("id", VStr "c02fc1d3-db8b-45c5-a222-27595b15aea7");
           ("child_page", VObj [("title", VStr "Meeting notes")])])
  = Normal {| childPages :=
                [page_marker
                 ++ " Meeting notes (ID: c02fc1d3db8b45c5a22227595b15aea7)"];
              childDatabases := [];
              contentBlocks := [] |}.
Proof.
  destruct (@child_page_line [] nothing_rendered
              (VObj [("type", VStr "child_page");
                     ("id", VStr "c02fc1d3-db8b-45c5-a222-27595b15aea7");
                     ("child_page", VObj [("title", VStr "Meeting notes")])])
              "c02fc1d3-db8b-45c5-a222-27595b15aea7" "Meeting notes"
              eq_refl eq_refl eq_refl eq_refl)
    as [Hline _].
  exact Hline.
Defined.

(** ** What the database tools return *)

(** X15.  When the collaborator resolves with a cycle-free value other than
    [undefined], [retrieve_database] returns its [JSON.stringify] text, a
    string, after exactly that one request; [query_database] does the same
    with the [results] of the response, and nothing of the response besides
    [results] reaches its text. *)
Theorem database_tools_serialize (h : store) (notion : collaborator)
        (args response : value) :
  Js.nullish args = false ->
  ref_free response = true -> response <> VUndefined ->
  (respond notion (databases_retrieve (Js.own h args "databaseId"))
   = Normal response ->
   exists s,
     Json.stringify h response = Normal (Some s)
     /\ retrieve_database h notion args
        = ([Called (databases_retrieve (Js.own h args "databaseId"))],
           Normal (text_envelope (VStr s))))
  /\ (forall other,
         respond notion
           (databases_query (Js.own h args "databaseId")
              (Js.own h args "filter")
              (if Js.truthy (Js.own h args "sort")
               then VArr [Js.own h args "sort"] else VUndefined))
         = Normal other ->
         Js.own h other "results" = response ->
         exists s,
           Json.stringify h response = Normal (Some s)
           /\ result (query_database h notion args)
              = Normal (text_envelope (VStr s))).
Proof.
  intros Hargs Hfree Hdefined.
  destruct (stringify_ref_free h response Hfree) as (t & Hjson & Hsome).
  destruct (Hsome Hdefined) as [s ->].
  split.
  - intros Hremote. exists s. split; [exact Hjson |].
    unfold retrieve_database, destructure. rewrite Hargs.
    cbn [lift bind]. cbv zeta. unfold call. rewrite Hremote.
    cbn [bind try_catch lift]. rewrite Hjson. reflexivity.
  - intros other Hremote Hresults. exists s. split; [exact Hjson |].
    assert (Hother : Js.get h other "results" = Normal response).
    { unfold Js.get. destruct other; cbn [Js.nullish];
        try (rewrite Hresults; reflexivity);
        cbn in Hresults; subst response; contradiction. }
    unfold query_database, destructure. rewrite Hargs. unfold lift at 1.
    rewrite result_bind. cbn [result snd]. cbv zeta.
    rewrite result_try_catch, result_bind. unfold call. cbn [result snd].
    rewrite Hremote. rewrite result_bind. cbn [lift result snd].
    rewrite Hother. rewrite result_bind. cbn [lift result snd].
    rewrite Hjson. reflexivity.
Qed.

Lemma database_tools_serialize_witness :
  exists s,
    retrieve_database []
      (resolving (VObj [("object", VStr "database");
                        ("id", VStr "d9824bdc")]))
      (VObj [("databaseId", VStr "d9824bdc")])
    = ([Called (databases_retrieve (VStr "d9824bdc"))],
       Normal (text_envelope (VStr s))).
Proof.
  destruct (@database_tools_serialize []
              (resolving (VObj [("object", VStr "database");
                                ("id", VStr "d9824bdc")]))
              (VObj [("databaseId", VStr "d9824bdc")])
              (VObj [("object", VStr "database"); ("id", VStr "d9824bdc")])
              eq_refl eq_refl)
    as [Hretrieve _]; [discriminate |].
  destruct (Hretrieve eq_refl) as (s & _ & Hresult).
  exists s. exact Hresult.
Defined.

(** ** The start of the process *)

(** X16.  The server connects its transport exactly when the API key is
    truthy: without a key, or with an empty one, it writes the fatal error
    and leaves with exit code 1 without connecting; and it leaves with that
    code exactly when the key is falsy or the connection fails. *)
Theorem start_requires_key (api_key : value) (connect : completion unit) :
  (In Connect (start api_key connect) <-> Js.truthy api_key = true)
  /\ (In (Exit 1) (start api_key connect)
      <-> Js.truthy api_key = false \/ exists e, connect = Throw e)
  /\ (Js.truthy api_key = false ->
      start api_key connect
      = [Diagnostic
           [VStr "Fatal error:";
            VErr "Error" "NOTION_API_KEY environment variable is required" []];
         Exit 1]).
Proof.
  unfold start, main.
  destruct (Js.truthy api_key); cbn [negb].
  - destruct connect as [[] | e]; cbn.
    + split; [tauto |]. split; [| discriminate].
      split.
      * intros [H | [H | []]]; discriminate H.
      * intros [H | [e H]]; discriminate H.
    + split; [tauto |]. split; [| discriminate].
      split; [eauto | tauto].
  - cbn. split.
    + split; [| discriminate]. intros [H | [H | []]]; discriminate H.
    + split; [| reflexivity]. split; [auto | tauto].
Qed.

(** ** The shape of a rendered page *)

Lemma trim_front_heading (l : list ascii) :
  Text.trim_front ("#"%char :: l) = "#"%char :: l.
Proof.
  destruct l as [| c2 [| c3 l]]; reflexivity.
Qed.

(** Trimming the reversed text never reaches a heading marker at its end,
    and stops on a byte that is no ASCII white space. *)
Lemma trim_front_rev_heading (n : nat) (l : list ascii) :
  length l <= n -> l <> [] -> last l " "%char = "#"%char ->
  Text.trim_front_rev l <> []
  /\ last (Text.trim_front_rev l) " "%char = "#"%char
  /\ (forall c, hd_error (Text.trim_front_rev l) = Some c ->
                is_ascii_space c = false).
Proof.
  revert l. induction n as [| n IH]; intros l Hlen Hne Hlast.
  { destruct l; [contradiction | cbn in Hlen; lia]. }
  assert (Hstop : l <> [] -> last l " "%char = "#"%char ->
                  forall c r, l = c :: r -> Text.ws1 c = false ->
                  l <> [] /\ last l " "%char = "#"%char
                  /\ (forall c', hd_error l = Some c' ->
                                 is_ascii_space c' = false)).
  { intros H1 H2 c r -> Hc. repeat split; auto.
    intros c' [= <-]. exact Hc. }
  destruct l as [| c1 r1]; [contradiction |].
  cbn [Text.trim_front_rev].
  destruct (Text.ws1 c1) eqn:H1.
  - destruct r1 as [| c2 r2].
    + cbn in Hlast. subst c1. discriminate H1.
    + apply IH; [cbn in *; lia | discriminate | exact Hlast].
  - destruct r1 as [| c2 r2]; [eapply Hstop; eauto |].
    destruct (Text.ws2 c2 c1) eqn:H2.
    + destruct r2 as [| c3 r3].
      * cbn in Hlast. subst c2. discriminate H2.
      * apply IH; [cbn in *; lia | discriminate | exact Hlast].
    + destruct r2 as [| c3 r3]; [eapply Hstop; eauto |].
      destruct (Text.ws3 c3 c2 c1) eqn:H3; [| eapply Hstop; eauto].
      destruct r3 as [| c4 r4].
      * cbn in Hlast. subst c3. discriminate H3.
      * apply IH; [cbn in *; lia | discriminate | exact Hlast].
Qed.

Lemma trim_heading (s : string) :
  first_byte (Text.trim (String "#" s)) = Some "#"%char
  /\ (forall c, last_byte (Text.trim (String "#" s)) = Some c ->
                is_ascii_space c = false).
Proof.
  unfold Text.trim. cbn [list_ascii_of_string].
  rewrite trim_front_heading.
  set (l := rev ("#"%char :: list_ascii_of_string s)).
  destruct (@trim_front_rev_heading (length l) l (le_n _))
    as (Hne & Hlast & Hhead).
  { unfold l. cbn [rev]. intros H. apply app_eq_nil in H.
    destruct H as [_ H]. discriminate H. }
  { unfold l. cbn [rev]. apply last_last. }
  set (t := Text.trim_front_rev l) in *.
  split.
  - rewrite (app_removelast_last " "%char Hne), Hlast, rev_app_distr.
    reflexivity.
  - unfold last_byte. rewrite list_ascii_of_string_of_list_ascii.
    destruct t as [| c' t']; [contradiction |].
    cbn [rev]. rewrite map_app. cbn [map]. rewrite last_last.
    intros c [= <-]. apply Hhead. reflexivity.
Qed.

(** X17.  Whatever the page and its blocks are, a text that the renderer
    returns starts with the heading marker (so it is never empty) and does
    not end in ASCII white space: the blank lines that close the last
    section are never part of the answer. *)
Theorem render_shape (h : store) (blocksResponse pageResponse : value)
        (s : string) :
  render h blocksResponse pageResponse = Normal s ->
  first_byte s = Some "#"%char
  /\ (forall c, last_byte s = Some c -> is_ascii_space c = false).
Proof.
  unfold render. intros Hrender.
  destruct (notionPage_parse h pageResponse) as [props | ?]; [| discriminate].
  destruct (find_title h props) as [titleProp | ?]; [| discriminate].
  destruct (resolve_title h titleProp) as [title | ?]; [| discriminate].
  destruct (Js.get h blocksResponse "results") as [results | ?];
    [| discriminate].
  destruct (iterate results) as [blocks | ?]; [| discriminate].
  destruct (render_blocks h _ blocks) as [st | ?]; [| discriminate].
  destruct (Js.to_string h title) as [heading | ?]; [| discriminate].
  injection Hrender as <-.
  unfold assemble. cbn [append]. apply trim_heading.
Qed.

Lemma render_shape_witness :
  exists s,
    render [] notes_blocks notes_page = Normal s
    /\ first_byte s = Some "#"%char
    /\ (forall c, last_byte s = Some c -> is_ascii_space c = false).
Proof.
  eexists. split; [reflexivity |].
  apply (@render_shape [] notes_blocks notes_page _ eq_refl).
Defined.
